(** * WebViewBridge (index.android.js): a shallow embedding and its properties

    The component is a React class whose methods read [this.props] and
    [this.state], queue state updates with [setState], call host-supplied
    functions, write to the console, register a listener on the global
    [DeviceEventEmitter] and dispatch commands to the native view.

    The embedding keeps that shape: JavaScript values are an inductive type,
    [this.props] and [this.state] are finite maps from property names to
    values, and every method is a computation in a small state-and-exception
    monad over a [World] that holds the instance, the emitter's subscriptions
    and the trace of observable effects. *)

From Stdlib Require Import ZArith.
From stdpp Require Import gmap strings list fin_maps pretty.

Local Open Scope string_scope.
Local Open Scope Z_scope.
Local Set Warnings "-register-all".

(** ** JavaScript values *)

(** The four methods the component binds and hands to the native view. *)
Inductive Method :=
| M_onLoadingStart
| M_onLoadingFinish
| M_onLoadingError
| M_onMessage.

Inductive Val :=
| VUndefined
| VNull
| VBool (b : bool)
| VNum (z : Z)
| VStr (s : string)
| VFun (f : nat)                 (* a host-supplied function, named by [f] *)
| VObj (o : gmap string Val)     (* a plain object *)
| VArr (l : list Val)            (* an array *)
| VEvent (ne : Val)              (* a synthetic event; [ne] is its nativeEvent *)
| VBound (m : Method)            (* this.m.bind(this) *)
| VResolved (source : Val)       (* resolveAssetSource(source) *)
| VResult (f : nat) (args : list Val). (* what the host function [f] returned *)

(** ToBoolean: the test of [if (v)], [v && ...]. *)
Definition truthy (v : Val) : bool :=
  match v with
  | VUndefined | VNull => false
  | VBool b => b
  | VNum z => negb (z =? 0)
  | VStr s => negb (String.eqb s "")
  | _ => true
  end.

(** [v != null]: neither null nor undefined. *)
Definition not_nullish (v : Val) : bool :=
  match v with
  | VUndefined | VNull => false
  | _ => true
  end.

(** [a === b] where one side is a primitive; two distinct object literals are
    never identical, and the component only ever compares against strings. *)
Definition strict_eq (a b : Val) : bool :=
  match a, b with
  | VUndefined, VUndefined => true
  | VNull, VNull => true
  | VBool x, VBool y => Bool.eqb x y
  | VNum x, VNum y => x =? y
  | VStr x, VStr y => String.eqb x y
  | VFun f, VFun g => Nat.eqb f g
  | _, _ => false
  end.

(** ['text' + v] for the values that can reach the one concatenation. *)
Definition to_js_string (v : Val) : string :=
  match v with
  | VUndefined => "undefined"
  | VNull => "null"
  | VBool true => "true"
  | VBool false => "false"
  | VNum z => pretty z
  | VStr s => s
  | VFun _ | VBound _ => "function"
  | _ => "[object Object]"
  end.

(** [o.k] on a map of properties: a missing property reads as undefined. *)
Definition prop (o : gmap string Val) (k : string) : Val :=
  default VUndefined (o !! k).

(** A synthetic event as the native view's callbacks receive it. *)
Record Event := mkEvent { nativeEvent : Val }.

Definition event_val (e : Event) : Val := VEvent (nativeEvent e).

(** ** Constants of the module *)

Definition RCT_WEBVIEWBRIDGE_REF : string := "webviewbridge".

(** keyMirror({IDLE: null, ...}) maps every key to its own name. *)
Module WebViewBridgeState.
Definition IDLE : Val := VStr "IDLE".
Definition LOADING : Val := VStr "LOADING".
Definition ERROR : Val := VStr "ERROR".
End WebViewBridgeState.

Module styles.
Definition container : Val := VObj {[ "flex" := VNum 1 ]}.
Definition hidden : Val :=
    VObj (<[ "height" := VNum 0 ]> {[ "flex" := VNum 0 ]}).
End styles.

(** Modelled from the spec: the command table
    [UIManager.RCTWebViewBridge.Commands] is exported by the native view
    manager, which is not part of the JavaScript source.  The spec lists the
    outbound commands by logical name: goForward, goBack, reload,
    sendToBridge(message). *)
Module Commands.
Inductive t := goForward | goBack | reload | sendToBridge.
End Commands.

(** ** Observable effects *)

Inductive Effect :=
| HostCall (f : nat) (args : list Val)      (* a host function is invoked *)
| ConsoleError (msg : string)
| ConsoleWarn (msg : string)
| EventPersist (e : Event)                  (* event.persist() *)
| DispatchViewManagerCommand (handle : Val) (cmd : Commands.t) (args : Val).

(** ** The world: one component instance and the global emitter *)

(** The only listener this module registers: the arrow function of
    componentWillMount, which closes over [this]. *)
Inductive Listener := BridgeMessageListener.

Record World := mkWorld {
  props : gmap string Val;            (* this.props *)
  state : gmap string Val;            (* this.state *)
  pending : list (gmap string Val);   (* setState calls not yet applied *)
  refs : gmap string Val;             (* this.refs *)
  listeners : list (string * Listener); (* DeviceEventEmitter subscriptions *)
  trace : list Effect                 (* effects so far, oldest first *)
}.

Definition set_props (p : gmap string Val) (w : World) : World :=
  mkWorld p (state w) (pending w) (refs w) (listeners w) (trace w).
Definition set_state (s : gmap string Val) (w : World) : World :=
  mkWorld (props w) s (pending w) (refs w) (listeners w) (trace w).
Definition set_pending (q : list (gmap string Val)) (w : World) : World :=
  mkWorld (props w) (state w) q (refs w) (listeners w) (trace w).
Definition set_refs (r : gmap string Val) (w : World) : World :=
  mkWorld (props w) (state w) (pending w) r (listeners w) (trace w).
Definition set_listeners (l : list (string * Listener)) (w : World) : World :=
  mkWorld (props w) (state w) (pending w) (refs w) l (trace w).
Definition set_trace (t : list Effect) (w : World) : World :=
  mkWorld (props w) (state w) (pending w) (refs w) (listeners w) t.

(** Nothing constructed yet, nobody subscribed, nothing observed. *)
Definition empty_world : World := mkWorld ∅ ∅ [] ∅ [] [].

(** ** The monad of methods: state plus JavaScript exceptions *)

Inductive Error :=
| TypeError_null            (* property read on null or undefined *)
| TypeError_not_a_function. (* call of a value that is not a function *)

Inductive Res (A : Type) :=
| Ok (a : A)
| Throw (e : Error).
Arguments Ok {A} a.
Arguments Throw {A} e.

Definition M (A : Type) : Type := World → Res A * World.

#[global] Instance M_ret : MRet M := λ A a w, (Ok a, w).
#[global] Instance M_bind : MBind M := λ A B k m w,
  match m w with
  | (Ok a, w') => k a w'
  | (Throw e, w') => (Throw e, w')
  end.

Definition throw {A} (e : Error) : M A := λ w, (Throw e, w).
Definition get_props : M (gmap string Val) := λ w, (Ok (props w), w).
Definition get_state : M (gmap string Val) := λ w, (Ok (state w), w).
Definition get_refs : M (gmap string Val) := λ w, (Ok (refs w), w).
Definition effect (e : Effect) : M unit :=
  λ w, (Ok tt, set_trace (trace w ++ [e])%list w).

(** [this.setState(partial)]: React queues the partial state; it is merged
    into [this.state] before the next render ([apply_pending]). *)
Definition setState (partial : gmap string Val) : M unit :=
  λ w, (Ok tt, set_pending (pending w ++ [partial])%list w).

(** [v.k] where [v] is neither null nor undefined. *)
Definition member_val (v : Val) (k : string) : Val :=
  match v with
  | VObj o => prop o k
  | VEvent ne => if decide (k = "nativeEvent") then ne else VUndefined
  | _ => VUndefined
  end.

(** [v.k] on a value: throws on null and undefined. *)
Definition member (v : Val) (k : string) : M Val :=
  if not_nullish v then mret (member_val v k) else throw TypeError_null.

(** [fn(args)]: a host function is invoked (recorded in the trace) and
    returns an opaque result; a bound method is never called by the component
    itself; anything else is not callable. *)
Definition call (fn : Val) (args : list Val) : M Val :=
  match fn with
  | VFun f => effect (HostCall f args) ;; mret (VResult f args)
  | _ => throw TypeError_not_a_function
  end.

Module console.
Definition error (msg : string) : M unit := effect (ConsoleError msg).
Definition warn (msg : string) : M unit := effect (ConsoleWarn msg).
End console.

(** ** The platform the component runs on *)

(** The arrow function registered in componentWillMount (lines 69-75):
    [body.message] is read before the callback is tested. *)
Definition bridgeMessageListener (body : Val) : M unit :=
  ps ← get_props;
  let onBridgeMessage := prop ps "onBridgeMessage" in
  message ← member body "message";
  if truthy onBridgeMessage then
    call onBridgeMessage [message] ;; mret tt
  else mret tt.

Definition call_listener (l : Listener) (body : Val) : M unit :=
  match l with
  | BridgeMessageListener => bridgeMessageListener body
  end.

(** React Native's process-wide emitter: [addListener] appends a
    subscription, [emit] calls the subscriptions of that event type in the
    order they were added. *)
Module DeviceEventEmitter.
Definition addListener (eventType : string) (l : Listener) : M unit :=
    λ w, (Ok tt, set_listeners (listeners w ++ [(eventType, l)])%list w).

Fixpoint notify (subs : list (string * Listener)) (eventType : string)
      (body : Val) : M unit :=
    match subs with
    | [] => mret tt
    | (n, l) :: subs' =>
        (if decide (n = eventType) then call_listener l body else mret tt) ;;
        notify subs' eventType body
    end.

Definition emit (eventType : string) (body : Val) : M unit :=
    λ w, notify (listeners w) eventType body w.
End DeviceEventEmitter.

Module ReactNative.
  (** null for no component, a number is already a handle, a native
      component instance carries its tag. *)
Definition findNodeHandle (component : Val) : Val :=
    match component with
    | VNum tag => VNum tag
    | VObj o => match prop o "_nativeTag" with
                | VNum tag => VNum tag
                | _ => VNull
                end
    | _ => VNull
    end.
End ReactNative.

Module UIManager.
  (** Fire and forget: the command is handed to the native side. *)
Definition dispatchViewManagerCommand (handle : Val) (cmd : Commands.t)
      (args : Val) : M unit :=
    effect (DispatchViewManagerCommand handle cmd args).
End UIManager.

(** Object.assign({}, o1, ..., on): later sources win. *)
Definition assign (sources : list (gmap string Val)) : gmap string Val :=
  foldl (λ acc o, o ∪ acc) ∅ sources.

(** A React element: [key] and [ref] are taken out of the attributes. *)
Record Element := mkElement {
  el_type : string;
  el_key : Val;
  el_ref : Val;
  el_props : gmap string Val
}.

Definition createElement (type : string) (config : gmap string Val) : Element :=
  mkElement type (prop config "key") (prop config "ref")
            (delete "key" (delete "ref" config)).

(** What render returns: the outer View with its two children. *)
Record Rendered := mkRendered {
  view_style : Val;
  webView : Element;
  otherView : Val
}.

(** ** The component *)

(** constructor (lines 59-66). *)
Definition constructor (ps : gmap string Val) : M unit :=
  λ w, (Ok tt,
        mkWorld ps
          (<[ "viewState" := WebViewBridgeState.IDLE ]>
           (<[ "lastErrorEvent" := VNull ]>
            {[ "startInLoadingState" := VBool true ]}))
          [] ∅ (listeners w) (trace w)).

(** componentWillMount (lines 68-80).  The subscription that [addListener]
    returns is dropped. *)
Definition componentWillMount : M unit :=
  DeviceEventEmitter.addListener "webViewBridgeMessage" BridgeMessageListener ;;
  ps ← get_props;
  if truthy (prop ps "startInLoadingState") then
    setState {[ "viewState" := WebViewBridgeState.LOADING ]}
  else mret tt.

(** The JSX expression of lines 116-128: attributes in source order, later
    ones overriding earlier ones. *)
Definition webView_jsx (props' : gmap string Val) (source : Val)
    (webViewStyles : list Val) : Element :=
  createElement "RCTWebViewBridge" (assign [
    {[ "ref" := VStr RCT_WEBVIEWBRIDGE_REF ]};
    {[ "key" := VStr "webViewKey" ]};
    {[ "javaScriptEnabled" := VBool true ]};
    props';
    {[ "source" := VResolved source ]};
    {[ "style" := VArr webViewStyles ]};
    {[ "onLoadingStart" := VBound M_onLoadingStart ]};
    {[ "onLoadingFinish" := VBound M_onLoadingFinish ]};
    {[ "onLoadingError" := VBound M_onLoadingError ]};
    {[ "onChange" := VBound M_onMessage ]} ]).

(** render (lines 82-136). *)
Definition render : M Rendered :=
  s ← get_state;
  ps ← get_props;
  otherView ←
    (if strict_eq (prop s "viewState") WebViewBridgeState.LOADING then
       if truthy (prop ps "renderLoading") then call (prop ps "renderLoading") []
       else mret (prop ps "renderLoading")
     else if strict_eq (prop s "viewState") WebViewBridgeState.ERROR then
       let errorEvent := prop s "lastErrorEvent" in
       if truthy (prop ps "renderError") then
         domain ← member errorEvent "domain";
         code ← member errorEvent "code";
         description ← member errorEvent "description";
         call (prop ps "renderError") [domain; code; description]
       else mret (prop ps "renderError")
     else if negb (strict_eq (prop s "viewState") WebViewBridgeState.IDLE) then
       console.error ("RCTWebViewBridge invalid state encountered: "
                      +:+ to_js_string (prop s "loading")) ;;
       mret VNull
     else mret VNull);
  let webViewStyles :=
    ([styles.container; prop ps "style"] ++
     (if strict_eq (prop s "viewState") WebViewBridgeState.LOADING
         || strict_eq (prop s "viewState") WebViewBridgeState.ERROR
      then [styles.hidden] else []))%list in
  javaScriptEnabled ←
    (if truthy (prop ps "javaScriptEnabledAndroid") then
       console.warn "javaScriptEnabledAndroid is deprecated. Use javaScriptEnabled instead" ;;
       mret (prop ps "javaScriptEnabledAndroid")
     else mret (prop ps "javaScriptEnabled"));
  domStorageEnabled ←
    (if truthy (prop ps "domStorageEnabledAndroid") then
       console.warn "domStorageEnabledAndroid is deprecated. Use domStorageEnabled instead" ;;
       mret (prop ps "domStorageEnabledAndroid")
     else mret (prop ps "domStorageEnabled"));
  (* neither local is read again: the element is built from [props'] *)
  let source := prop ps "source" in
  let props' := delete "source" ps in
  let webView := webView_jsx props' source webViewStyles in
  mret (mkRendered styles.container webView otherView).

(** onMessage (lines 138-142). *)
Definition onMessage (event : Event) : M unit :=
  ps ← get_props;
  if not_nullish (prop ps "onBridgeMessage")
     && not_nullish (nativeEvent event) then
    message ← member (nativeEvent event) "message";
    call (prop ps "onBridgeMessage") [message] ;; mret tt
  else mret tt.

(** getWebViewBridgeHandle (lines 186-188). *)
Definition getWebViewBridgeHandle : M Val :=
  rs ← get_refs;
  mret (ReactNative.findNodeHandle (prop rs RCT_WEBVIEWBRIDGE_REF)).

(** goForward, goBack, reload, sendToBridge (lines 144-174). *)
Definition goForward : M unit :=
  handle ← getWebViewBridgeHandle;
  UIManager.dispatchViewManagerCommand handle Commands.goForward VNull.

Definition goBack : M unit :=
  handle ← getWebViewBridgeHandle;
  UIManager.dispatchViewManagerCommand handle Commands.goBack VNull.

Definition reload : M unit :=
  handle ← getWebViewBridgeHandle;
  UIManager.dispatchViewManagerCommand handle Commands.reload VNull.

Definition sendToBridge (message : Val) : M unit :=
  handle ← getWebViewBridgeHandle;
  UIManager.dispatchViewManagerCommand handle Commands.sendToBridge
    (VArr [message]).

(** updateNavigationState (lines 180-184). *)
Definition updateNavigationState (event : Event) : M unit :=
  ps ← get_props;
  if truthy (prop ps "onNavigationStateChange") then
    call (prop ps "onNavigationStateChange") [nativeEvent event] ;; mret tt
  else mret tt.

(** onLoadingStart (lines 190-194). *)
Definition onLoadingStart (event : Event) : M unit :=
  ps ← get_props;
  let onLoadStart := prop ps "onLoadStart" in
  (if truthy onLoadStart then call onLoadStart [event_val event] ;; mret tt
   else mret tt) ;;
  updateNavigationState event.

(** onLoadingError (lines 195-205). *)
Definition onLoadingError (event : Event) : M unit :=
  effect (EventPersist event) ;;
  ps ← get_props;
  let onError := prop ps "onError" in
  let onLoadEnd := prop ps "onLoadEnd" in
  (if truthy onError then call onError [event_val event] ;; mret tt
   else mret tt) ;;
  (if truthy onLoadEnd then call onLoadEnd [event_val event] ;; mret tt
   else mret tt) ;;
  setState (<[ "lastErrorEvent" := nativeEvent event ]>
            {[ "viewState" := WebViewBridgeState.ERROR ]}).

(** onLoadingFinish (lines 207-215). *)
Definition onLoadingFinish (event : Event) : M unit :=
  ps ← get_props;
  let onLoad := prop ps "onLoad" in
  let onLoadEnd := prop ps "onLoadEnd" in
  (if truthy onLoad then call onLoad [event_val event] ;; mret tt
   else mret tt) ;;
  (if truthy onLoadEnd then call onLoadEnd [event_val event] ;; mret tt
   else mret tt) ;;
  setState {[ "viewState" := WebViewBridgeState.IDLE ]} ;;
  updateNavigationState event.

(** ** React's part: lifecycle and delivery of events *)

(** The queued partial states are merged into [this.state], oldest first. *)
Definition apply_pending : M unit :=
  λ w, (Ok tt,
        set_pending []
          (set_state (foldl (λ s partial, partial ∪ s) (state w) (pending w)) w)).

(** The native view instance React stores under the element's string ref. *)
Definition native_instance (tag : Z) : Val :=
  VObj {[ "_nativeTag" := VNum tag ]}.

Definition with_ref (r : Rendered) (tag : Z) (w : World) : World :=
  match el_ref (webView r) with
  | VStr name => set_refs (<[ name := native_instance tag ]> (refs w)) w
  | _ => w
  end.

Definition attach_ref (r : Rendered) (tag : Z) : M unit :=
  λ w, (Ok tt, with_ref r tag w).

(** Mounting: constructor, componentWillMount, the queued state, the first
    render; then the ref is attached. [tag] is the native view's handle. *)
Definition mount (ps : gmap string Val) (tag : Z) : M Rendered :=
  constructor ps ;;
  componentWillMount ;;
  apply_pending ;;
  r ← render;
  attach_ref r tag ;;
  mret r.

(** After a handler: when it called setState, the state is merged and the
    component renders again. *)
Definition update : M unit :=
  λ w, match pending w with
       | [] => (Ok tt, w)
       | _ => (apply_pending ;; render ;; mret tt) w
       end.

(** The parent renders the component again with new props. *)
Definition receiveProps (ps : gmap string Val) : M unit :=
  (λ w, (Ok tt, set_props ps w)) ;;
  apply_pending ;;
  render ;; mret tt.

(** Unmounting: the class defines no componentWillUnmount, so none of its
    code runs; React detaches the refs. The instance stays alive as long as
    something (a closure, a host reference) holds it. *)
Definition unmount : M unit :=
  λ w, (Ok tt, set_refs ∅ w).

(** What can happen to a mounted instance. Load events come from the native
    view through React's event plumbing, which wraps the native payload (an
    object) in a synthetic event; the payload of a change event may be
    missing, which onMessage tests for. *)
Inductive Input :=
| LoadStart (ne : gmap string Val)
| LoadError (ne : gmap string Val)
| LoadFinish (ne : gmap string Val)
| Change (ne : Val)
| BridgeMessage (body : gmap string Val) (* emitted on "webViewBridgeMessage" *)
| ReceiveProps (ps : gmap string Val)
| CallGoForward
| CallGoBack
| CallReload
| CallSendToBridge (message : Val)
| Unmount.

Definition step (i : Input) : M unit :=
  match i with
  | LoadStart ne => onLoadingStart (mkEvent (VObj ne)) ;; update
  | LoadError ne => onLoadingError (mkEvent (VObj ne)) ;; update
  | LoadFinish ne => onLoadingFinish (mkEvent (VObj ne)) ;; update
  | Change ne => onMessage (mkEvent ne) ;; update
  | BridgeMessage body =>
      DeviceEventEmitter.emit "webViewBridgeMessage" (VObj body) ;; update
  | ReceiveProps ps => receiveProps ps
  | CallGoForward => goForward
  | CallGoBack => goBack
  | CallReload => reload
  | CallSendToBridge message => sendToBridge message
  | Unmount => unmount
  end.

(** Inputs one after the other; an exception ends the run. *)
Fixpoint run (inputs : list Input) : M unit :=
  match inputs with
  | [] => mret tt
  | i :: inputs' => step i ;; run inputs'
  end.

(** A whole life of one instance, from mounting on. *)
Definition lifetime (ps : gmap string Val) (tag : Z)
    (inputs : list Input) : M unit :=
  mount ps tag ;; run inputs.

(** ** Reading the state and the trace *)

(** [this.state.viewState]. *)
Definition viewState (w : World) : Val := prop (state w) "viewState".

(** [this.state.lastErrorEvent]. *)
Definition lastErrorEvent (w : World) : Val := prop (state w) "lastErrorEvent".

(** The world with more effects observed and nothing else changed. *)
Definition add_trace (es : list Effect) (w : World) : World :=
  set_trace (trace w ++ es)%list w.

(** The console warnings of a trace, in order. *)
Fixpoint warnings (t : list Effect) : list string :=
  match t with
  | [] => []
  | ConsoleWarn msg :: t' => msg :: warnings t'
  | _ :: t' => warnings t'
  end.

(** The handle the commands are sent to. *)
Definition current_handle (w : World) : Val :=
  ReactNative.findNodeHandle (prop (refs w) RCT_WEBVIEWBRIDGE_REF).

(** The one subscription componentWillMount makes. *)
Definition bridge_subscription : string * Listener :=
  ("webViewBridgeMessage", BridgeMessageListener).

(** ** Props that obey the prop types *)

(** PropTypes.func, optional: absent, null or a function. *)
Definition func_or_absent (v : Val) : bool :=
  match v with
  | VUndefined | VNull | VFun _ => true
  | _ => false
  end.

(** The host-facing callbacks of the component. *)
Definition callback_names : list string :=
  ["onBridgeMessage"; "onLoadStart"; "onLoad"; "onLoadEnd"; "onError";
   "onNavigationStateChange"; "renderLoading"; "renderError"].

(** Every callback prop is a function or absent. *)
Definition well_typed_props (ps : gmap string Val) : bool :=
  forallb (λ k, func_or_absent (prop ps k)) callback_names.

(** New props obey the prop types as well. *)
Definition input_ok (i : Input) : bool :=
  match i with
  | ReceiveProps ps => well_typed_props ps
  | _ => true
  end.

(** [f] is one of the callbacks handed over in [ps]. *)
Definition registered (f : nat) (ps : gmap string Val) : Prop :=
  ∃ k, k ∈ callback_names ∧ prop ps k = VFun f.

(** ** What a guarded call and a render do *)

(** The call a guarded invocation [fn && fn(args)] makes: one call when [fn]
    is a function, none otherwise. *)
Definition invocation (fn : Val) (args : list Val) : list Effect :=
  match fn with
  | VFun f => [HostCall f args]
  | _ => []
  end.

(** What [fn && fn(args)] evaluates to. *)
Definition guarded_value (fn : Val) (args : list Val) : Val :=
  match fn with
  | VFun f => VResult f args
  | v => v
  end.

(** The deprecation warnings of one render. *)
Definition deprecation_warnings (ps : gmap string Val) : list string :=
  ((if truthy (prop ps "javaScriptEnabledAndroid")
    then ["javaScriptEnabledAndroid is deprecated. Use javaScriptEnabled instead"]
    else []) ++
   (if truthy (prop ps "domStorageEnabledAndroid")
    then ["domStorageEnabledAndroid is deprecated. Use domStorageEnabled instead"]
    else []))%list.

(** The style array render gives the native view in a given state. *)
Definition expected_styles (ps s : gmap string Val) : list Val :=
  ([styles.container; prop ps "style"] ++
   (if strict_eq (prop s "viewState") WebViewBridgeState.LOADING
       || strict_eq (prop s "viewState") WebViewBridgeState.ERROR
    then [styles.hidden] else []))%list.

(** The arguments the error renderer is given. *)
Definition error_args (errorEvent : Val) : list Val :=
  [member_val errorEvent "domain"; member_val errorEvent "code";
   member_val errorEvent "description"].

(** The second child of the outer View in a given state. *)
Definition overlay (ps s : gmap string Val) : Val :=
  if strict_eq (prop s "viewState") WebViewBridgeState.LOADING then
    guarded_value (prop ps "renderLoading") []
  else if strict_eq (prop s "viewState") WebViewBridgeState.ERROR then
    guarded_value (prop ps "renderError") (error_args (prop s "lastErrorEvent"))
  else VNull.

(** The effects of computing that child: the renderer's call, or the log of
    an unexpected state. *)
Definition overlay_effects (ps s : gmap string Val) : list Effect :=
  if strict_eq (prop s "viewState") WebViewBridgeState.LOADING then
    invocation (prop ps "renderLoading") []
  else if strict_eq (prop s "viewState") WebViewBridgeState.ERROR then
    invocation (prop ps "renderError") (error_args (prop s "lastErrorEvent"))
  else if negb (strict_eq (prop s "viewState") WebViewBridgeState.IDLE) then
    [ConsoleError ("RCTWebViewBridge invalid state encountered: "
                   +:+ to_js_string (prop s "loading"))]
  else [].

(** All effects of one render, in order. *)
Definition render_effects (ps s : gmap string Val) : list Effect :=
  (overlay_effects ps s ++ map ConsoleWarn (deprecation_warnings ps))%list.

(** What one render returns. *)
Definition rendered (ps s : gmap string Val) : Rendered :=
  mkRendered styles.container
    (webView_jsx (delete "source" ps) (prop ps "source") (expected_styles ps s))
    (overlay ps s).

(** The attributes the component sets itself after spreading the host's
    props, and the two React takes out of every element. *)
Definition overridden : list string :=
  ["key"; "ref"; "source"; "style"; "onLoadingStart"; "onLoadingFinish";
   "onLoadingError"; "onChange"].

(** ** The two inbound message paths and the commands *)

(** The calls one emitted event leads to: one guarded invocation of [fn] per
    subscription of that event type, in subscription order. *)
Definition deliveries (subs : list (string * Listener)) (eventType : string)
    (fn : Val) (body : Val) : list Effect :=
  flat_map (λ sub, if decide (sub.1 = eventType)
                   then invocation fn [member_val body "message"]
                   else []) subs.

(** The call onMessage makes for a change event. *)
Definition change_effects (ps : gmap string Val) (ne : Val) : list Effect :=
  if not_nullish ne
  then invocation (prop ps "onBridgeMessage") [member_val ne "message"]
  else [].

(** A method issues exactly one command to the native view, returns nothing
    and leaves the rest of the instance as it was. *)
Definition issues_one_command (m : M unit) (cmd : Commands.t) (args : Val)
    (w : World) : Prop :=
  ∃ w', m w = (Ok tt, w') ∧
        trace w' = (trace w ++
                    [DispatchViewManagerCommand (current_handle w) cmd args])%list ∧
        viewState w' = viewState w ∧ lastErrorEvent w' = lastErrorEvent w ∧
        state w' = state w ∧ pending w' = pending w ∧ props w' = props w ∧
        listeners w' = listeners w.

(** ** The transition table of the display state *)

(** The native lifecycle events. *)
Inductive Lifecycle :=
| load_start (ne : gmap string Val)
| load_error (ne : gmap string Val)
| load_finish (ne : gmap string Val).

(** The input by which the native view delivers a lifecycle event. *)
Definition deliver (e : Lifecycle) : Input :=
  match e with
  | load_start ne => LoadStart ne
  | load_error ne => LoadError ne
  | load_finish ne => LoadFinish ne
  end.

(** The "New State" column of the table: what the display state becomes,
    given the event and the state before it. *)
Definition table_state (e : Lifecycle) (before : Val) : Val :=
  match e with
  | load_start _ => before
  | load_error _ => WebViewBridgeState.ERROR
  | load_finish _ => WebViewBridgeState.IDLE
  end.

(** The "Side effect" column, as the calls made by the handler, in order. *)
Definition table_effects (ps : gmap string Val) (e : Lifecycle) : list Effect :=
  match e with
  | load_start ne =>
      invocation (prop ps "onLoadStart") [VEvent (VObj ne)] ++
      invocation (prop ps "onNavigationStateChange") [VObj ne]
  | load_error ne =>
      [EventPersist (mkEvent (VObj ne))] ++
      invocation (prop ps "onError") [VEvent (VObj ne)] ++
      invocation (prop ps "onLoadEnd") [VEvent (VObj ne)]
  | load_finish ne =>
      invocation (prop ps "onLoad") [VEvent (VObj ne)] ++
      invocation (prop ps "onLoadEnd") [VEvent (VObj ne)] ++
      invocation (prop ps "onNavigationStateChange") [VObj ne]
  end%list.

(** One row of the table, relating the world before and after the event. *)
Definition table_row (e : Lifecycle) (w w' : World) : Prop :=
  viewState w' = table_state e (viewState w) ∧
  props w' = props w ∧ pending w' = [] ∧
  match e with
  | load_start ne =>
      w' = add_trace (table_effects (props w) e) w
  | load_error ne =>
      lastErrorEvent w' = VObj ne ∧
      trace w' = (trace w ++ table_effects (props w) e ++
                  render_effects (props w) (state w'))%list
  | load_finish ne =>
      lastErrorEvent w' = lastErrorEvent w ∧
      trace w' = (trace w ++ table_effects (props w) e ++
                  render_effects (props w) (state w'))%list
  end.

(** ** A life of inputs *)

(** The props in force after some inputs. *)
Definition props_after (inputs : list Input) (ps : gmap string Val)
    : gmap string Val :=
  foldl (λ p i, match i with ReceiveProps ps' => ps' | _ => p end) ps inputs.

(** The error record stored after some inputs: the payload of the latest
    load-error event. *)
Definition error_after (inputs : list Input) (before : Val) : Val :=
  foldl (λ v i, match i with LoadError ne => VObj ne | _ => v end)
        before inputs.

(** Every set of props the instance has had. *)
Definition props_given (ps : gmap string Val) (inputs : list Input)
    : list (gmap string Val) :=
  ps :: omap (λ i, match i with ReceiveProps ps' => Some ps' | _ => None end)
             inputs.

(** The state the constructor builds. *)
Definition initial_state : gmap string Val :=
  <[ "viewState" := WebViewBridgeState.IDLE ]>
  (<[ "lastErrorEvent" := VNull ]>
   {[ "startInLoadingState" := VBool true ]}).

(** The state of the first render. *)
Definition mounted_state (ps : gmap string Val) : gmap string Val :=
  if truthy (prop ps "startInLoadingState")
  then {[ "viewState" := WebViewBridgeState.LOADING ]} ∪ initial_state
  else initial_state.

(** The world right after mounting in [w]. *)
Definition mounted_world (ps : gmap string Val) (tag : Z) (w : World) : World :=
  with_ref (rendered ps (mounted_state ps)) tag
    (add_trace (render_effects ps (mounted_state ps))
       (mkWorld ps (mounted_state ps) [] ∅
                (listeners w ++ [bridge_subscription]) (trace w))).

(** ** Invariants *)

(** The error record is there whenever the state says ERROR. *)
Definition error_recorded (s : gmap string Val) : Prop :=
  prop s "viewState" = WebViewBridgeState.ERROR →
  ∃ o, prop s "lastErrorEvent" = VObj o.

(** The instance is at rest: its callback props are functions or absent, no
    setState is waiting, and an ERROR state has its error record. *)
Definition at_rest (w : World) : Prop :=
  well_typed_props (props w) = true ∧ pending w = [] ∧
  error_recorded (state w).

(** A partial state that keeps [error_recorded] whatever it is merged into. *)
Definition safe_partial (p : gmap string Val) : Prop :=
  ∀ s, error_recorded (p ∪ s).

(** The invariant: the state has its error record, and so will every state
    the queued updates lead to. *)
Definition error_safe (w : World) : Prop :=
  error_recorded (state w) ∧ Forall safe_partial (pending w).

(** A computation keeps [J], whether it returns or throws. *)
Definition preserves {A} (J : World → Prop) (m : M A) : Prop :=
  ∀ w, J w → J (m w).2.

(** A computation never fails on a read of null or undefined. *)
Definition null_free {A} (m : M A) : Prop :=
  ∀ w, (m w).1 ≠ Throw TypeError_null.

(** ** Sample hosts *)

(** A host that supplies every callback and the legacy script flag. *)
Definition sample_props : gmap string Val :=
  <[ "onBridgeMessage" := VFun 1 ]>
  (<[ "onLoadStart" := VFun 2 ]>
  (<[ "onLoad" := VFun 3 ]>
  (<[ "onLoadEnd" := VFun 4 ]>
  (<[ "onError" := VFun 5 ]>
  (<[ "onNavigationStateChange" := VFun 6 ]>
  (<[ "renderLoading" := VFun 7 ]>
  (<[ "renderError" := VFun 8 ]>
  (<[ "startInLoadingState" := VBool true ]>
  (<[ "javaScriptEnabledAndroid" := VBool true ]>
   {[ "source" := VObj {[ "uri" := VStr "https://example.org" ]} ]}))))))))).

(** A host that only sets the legacy script flag. *)
Definition legacy_props : gmap string Val :=
  {[ "javaScriptEnabledAndroid" := VBool true ]}.

(** A host that only sets the legacy storage flag. *)
Definition legacy_storage_props : gmap string Val :=
  {[ "domStorageEnabledAndroid" := VBool true ]}.

(** A host that only listens to bridge messages. *)
Definition listening_props : gmap string Val :=
  {[ "onBridgeMessage" := VFun 1 ]}.

(** The error event of the spec's example. *)
Definition sample_error : gmap string Val :=
  <[ "domain" := VStr "NET" ]>
  (<[ "code" := VNum (-6) ]> {[ "description" := VStr "timeout" ]}).

(** A navigation snapshot. *)
Definition sample_nav : gmap string Val :=
  <[ "url" := VStr "https://example.org" ]> {[ "loading" := VBool false ]}.

(** The payload of a bridge message. *)
Definition ping : gmap string Val := {[ "message" := VStr "ping" ]}.

(** The sample host's instance right after mounting. *)
Definition sample_world : World := mounted_world sample_props 7 empty_world.

(** A world whose display state is none of the three. *)
Definition bogus_world : World :=
  set_state {[ "viewState" := VStr "BOGUS" ]} sample_world.

(** ** Further vocabulary: what the code uses and what it leaves alone *)

(** The partial states the component ever hands to setState: the three of
    componentWillMount, onLoadingFinish and onLoadingError. *)
Definition used_partial (p : gmap string Val) : Prop :=
  p = {[ "viewState" := WebViewBridgeState.LOADING ]} ∨
  p = {[ "viewState" := WebViewBridgeState.IDLE ]} ∨
  ∃ v, p = <[ "lastErrorEvent" := v ]>
             {[ "viewState" := WebViewBridgeState.ERROR ]}.

(** [w'] is [w] with more effects observed and nothing else changed. *)
Definition only_observed (w w' : World) : Prop :=
  ∃ es, w' = add_trace es w.

(** The shape [this.state] has from the constructor on: the view state is one
    of the three, nobody ever sets [loading], and the constructor's
    [startInLoadingState] stays as it was written. *)
Definition state_shape (s : gmap string Val) : Prop :=
  prop s "viewState" ∈ [WebViewBridgeState.IDLE; WebViewBridgeState.LOADING;
                        WebViewBridgeState.ERROR] ∧
  prop s "loading" = VUndefined ∧
  prop s "startInLoadingState" = VBool true.

(** The shape survives the merge of a partial state, and of every queued
    one. *)
Definition shape_safe (w : World) : Prop :=
  state_shape (state w) ∧
  Forall (λ p, ∀ s, state_shape s → state_shape (p ∪ s)) (pending w).

(** The display state after some inputs: only a load error and a load finish
    change it. *)
Definition view_after (inputs : list Input) (before : Val) : Val :=
  foldl (λ v i, match i with
                | LoadError _ => WebViewBridgeState.ERROR
                | LoadFinish _ => WebViewBridgeState.IDLE
                | _ => v
                end) before inputs.

(** The inputs after which the component renders again. *)
Definition rerenders (i : Input) : bool :=
  match i with
  | LoadError _ | LoadFinish _ | ReceiveProps _ => true
  | _ => false
  end.

(** The deprecation warnings of the renders some inputs lead to, each with
    the props in force at that render. *)
Fixpoint warnings_of (ps : gmap string Val) (inputs : list Input) : list string :=
  match inputs with
  | [] => []
  | i :: inputs' =>
      ((if rerenders i then deprecation_warnings (props_after [i] ps) else [])
       ++ warnings_of (props_after [i] ps) inputs')%list
  end.

(** Has the instance been unmounted? *)
Definition unmounted (inputs : list Input) : bool :=
  existsb (λ i, match i with Unmount => true | _ => false end) inputs.


(** A host that passes [false] for the message callback. *)
Definition falsy_callback_world : World :=
  mounted_world {[ "onBridgeMessage" := VBool false ]} 7 empty_world.

(** An instance in the ERROR state whose error record is missing. *)
Definition recordless_world : World :=
  set_state {[ "viewState" := WebViewBridgeState.ERROR ]} sample_world.

(** A computation reads nothing of the world but the props and the state: in
    two worlds that agree on them it gives the same result and the same
    effects, and changes nothing else. *)
Definition reads_props_and_state {A} (m : M A) : Prop :=
  ∀ w w2, props w = props w2 → state w = state w2 →
          (m w).1 = (m w2).1 ∧
          ∃ es, (m w).2 = add_trace es w ∧ (m w2).2 = add_trace es w2.

(** ** Basic facts about the monad and the world *)

Lemma bind_ok {A B} (m : M A) (k : A → M B) w a w1 :
  m w = (Ok a, w1) → (m ≫= k) w = k a w1.
Proof. intros H. unfold mbind, M_bind. by rewrite H. Qed.

Lemma effect_ok e w : effect e w = (Ok tt, add_trace [e] w).
Proof. reflexivity. Qed.

Lemma add_trace_nil w : add_trace [] w = w.
Proof. destruct w. unfold add_trace, set_trace. simpl. by rewrite app_nil_r. Qed.

Lemma add_trace_add_trace es1 es2 w :
  add_trace es2 (add_trace es1 w) = add_trace (es1 ++ es2) w.
Proof. unfold add_trace, set_trace. simpl. by rewrite app_assoc. Qed.

Lemma add_trace_set_pending es q w :
  add_trace es (set_pending q w) = set_pending q (add_trace es w).
Proof. reflexivity. Qed.

Lemma setState_ok p w :
  setState p w = (Ok tt, set_pending (pending w ++ [p]) w).
Proof. reflexivity. Qed.

Lemma strict_eq_str v s : strict_eq v (VStr s) = true ↔ v = VStr s.
Proof.
  destruct v; simpl; split; try done.
  - intros H. apply String.eqb_eq in H. by subst.
  - intros [= ->]. apply String.eqb_refl.
Qed.

Lemma guarded_call fn args w :
  func_or_absent fn = true →
  (if truthy fn then call fn args ;; mret tt else mret tt) w
  = (Ok tt, add_trace (invocation fn args) w).
Proof.
  intros H. destruct fn; simpl in *; try done;
    try (by rewrite add_trace_nil).
Qed.

Lemma well_typed_props_prop ps k :
  well_typed_props ps = true → k ∈ callback_names →
  func_or_absent (prop ps k) = true.
Proof.
  unfold well_typed_props. rewrite forallb_forall. intros H Hk.
  apply H. by apply list_elem_of_In.
Qed.

Lemma member_ok v k w :
  not_nullish v = true → member v k w = (Ok (member_val v k), w).
Proof. intros H. unfold member. by rewrite H. Qed.

(** ** render *)

(** render returns, with the effects of [render_effects], whenever the
    renderer of the current branch is a function or absent and, in the ERROR
    branch, the stored error can be read. *)
Lemma render_branch w :
  (viewState w = WebViewBridgeState.LOADING →
   func_or_absent (prop (props w) "renderLoading") = true) →
  (viewState w = WebViewBridgeState.ERROR →
   func_or_absent (prop (props w) "renderError") = true
   ∧ not_nullish (lastErrorEvent w) = true) →
  render w = (Ok (rendered (props w) (state w)),
              add_trace (render_effects (props w) (state w)) w).
Proof.
  intros HL HE.
  unfold render, rendered, render_effects, overlay, overlay_effects,
    expected_styles, deprecation_warnings, add_trace, set_trace.
  unfold viewState, lastErrorEvent in *.
  destruct w as [ps s q rs ls t]; simpl in *.
  unfold mbind, M_bind, get_state, get_props; simpl.
  destruct (truthy (prop ps "javaScriptEnabledAndroid")),
    (truthy (prop ps "domStorageEnabledAndroid"));
  destruct (strict_eq (prop s "viewState") WebViewBridgeState.LOADING) eqn:EL;
    simpl.
  all: try (apply strict_eq_str in EL; specialize (HL EL);
            destruct (prop ps "renderLoading"); simpl in HL; try done; simpl;
            by rewrite ?app_nil_r, <- ?app_assoc).
  all: destruct (strict_eq (prop s "viewState") WebViewBridgeState.ERROR) eqn:EE;
    simpl.
  all: try (apply strict_eq_str in EE; destruct (HE EE) as [HF HN];
            unfold member, error_args; rewrite HN;
            destruct (prop ps "renderError"); simpl in HF; try done; simpl;
            by rewrite ?app_nil_r, <- ?app_assoc).
  all: destruct (strict_eq (prop s "viewState") WebViewBridgeState.IDLE); simpl.
  all: by rewrite ?app_nil_r, <- ?app_assoc.
Qed.

Lemma render_ok w :
  func_or_absent (prop (props w) "renderLoading") = true →
  func_or_absent (prop (props w) "renderError") = true →
  error_recorded (state w) →
  render w = (Ok (rendered (props w) (state w)),
              add_trace (render_effects (props w) (state w)) w).
Proof.
  intros HL HE Herr. apply render_branch; [done|].
  intros EE. split; [done|]. destruct (Herr EE) as [o Ho].
  unfold lastErrorEvent. by rewrite Ho.
Qed.

(** ** The handlers *)

Ltac norm_trace :=
  rewrite ?add_trace_set_pending, ?add_trace_add_trace, <- ?app_assoc; simpl.

Ltac callback H k :=
  let F := fresh "F" in
  pose proof (well_typed_props_prop _ k H ltac:(unfold callback_names; set_solver)) as F.

Lemma updateNavigationState_ok e w :
  well_typed_props (props w) = true →
  updateNavigationState e w
  = (Ok tt, add_trace (invocation (prop (props w) "onNavigationStateChange")
                                  [nativeEvent e]) w).
Proof.
  intros H. callback H "onNavigationStateChange".
  unfold updateNavigationState. erewrite bind_ok; [|reflexivity].
  by apply guarded_call.
Qed.

Lemma onLoadingStart_ok e w :
  well_typed_props (props w) = true →
  onLoadingStart e w
  = (Ok tt, add_trace (invocation (prop (props w) "onLoadStart") [event_val e] ++
                       invocation (prop (props w) "onNavigationStateChange")
                                  [nativeEvent e]) w).
Proof.
  intros H. callback H "onLoadStart".
  unfold onLoadingStart. erewrite bind_ok; [|reflexivity].
  erewrite bind_ok; [|by apply guarded_call].
  rewrite updateNavigationState_ok by done.
  by norm_trace.
Qed.

Lemma onLoadingError_ok e w :
  well_typed_props (props w) = true →
  onLoadingError e w
  = (Ok tt,
     set_pending (pending w ++
                  [<[ "lastErrorEvent" := nativeEvent e ]>
                   {[ "viewState" := WebViewBridgeState.ERROR ]}])
       (add_trace ([EventPersist e] ++
                   invocation (prop (props w) "onError") [event_val e] ++
                   invocation (prop (props w) "onLoadEnd") [event_val e]) w)).
Proof.
  intros H. callback H "onError". callback H "onLoadEnd".
  unfold onLoadingError. erewrite bind_ok; [|apply effect_ok].
  erewrite bind_ok; [|reflexivity].
  erewrite bind_ok; [|by apply guarded_call].
  erewrite bind_ok; [|by apply guarded_call].
  by norm_trace.
Qed.

Lemma onLoadingFinish_ok e w :
  well_typed_props (props w) = true →
  onLoadingFinish e w
  = (Ok tt,
     set_pending (pending w ++ [{[ "viewState" := WebViewBridgeState.IDLE ]}])
       (add_trace (invocation (prop (props w) "onLoad") [event_val e] ++
                   invocation (prop (props w) "onLoadEnd") [event_val e] ++
                   invocation (prop (props w) "onNavigationStateChange")
                              [nativeEvent e]) w)).
Proof.
  intros H. callback H "onLoad". callback H "onLoadEnd".
  unfold onLoadingFinish. erewrite bind_ok; [|reflexivity].
  erewrite bind_ok; [|by apply guarded_call].
  erewrite bind_ok; [|by apply guarded_call].
  erewrite bind_ok; [|apply setState_ok].
  rewrite updateNavigationState_ok by done.
  by norm_trace.
Qed.

(** ** Reading a merged state *)

Lemma prop_union_l (p s : gmap string Val) k v :
  p !! k = Some v → prop (p ∪ s) k = v.
Proof. intros H. unfold prop. by rewrite (lookup_union_Some_l _ _ _ _ H). Qed.

Lemma prop_union_r (p s : gmap string Val) k :
  p !! k = None → prop (p ∪ s) k = prop s k.
Proof. intros H. unfold prop. by rewrite lookup_union_r. Qed.

(** ** Updates after a handler *)

Lemma update_idle w : pending w = [] → update w = (Ok tt, w).
Proof. intros H. unfold update. by rewrite H. Qed.

Lemma update_one w p :
  pending w = [p] →
  let w2 := set_pending [] (set_state (p ∪ state w) w) in
  (viewState w2 = WebViewBridgeState.LOADING →
   func_or_absent (prop (props w) "renderLoading") = true) →
  (viewState w2 = WebViewBridgeState.ERROR →
   func_or_absent (prop (props w) "renderError") = true
   ∧ not_nullish (lastErrorEvent w2) = true) →
  update w = (Ok tt, add_trace (render_effects (props w) (p ∪ state w)) w2).
Proof.
  intros Hp w2 HL HE. unfold update. rewrite Hp.
  erewrite bind_ok; [|reflexivity]. simpl. rewrite Hp. simpl.
  fold w2.
  erewrite bind_ok; [|by apply render_branch]. reflexivity.
Qed.

Lemma step_load_start ne w :
  well_typed_props (props w) = true → pending w = [] →
  step (LoadStart ne) w
  = (Ok tt, add_trace (table_effects (props w) (load_start ne)) w).
Proof.
  intros H Hp. simpl.
  erewrite bind_ok; [|by apply onLoadingStart_ok].
  by apply update_idle.
Qed.

Lemma step_load_error ne w :
  well_typed_props (props w) = true → pending w = [] →
  let s' := <[ "lastErrorEvent" := VObj ne ]>
              {[ "viewState" := WebViewBridgeState.ERROR ]} ∪ state w in
  step (LoadError ne) w
  = (Ok tt,
     add_trace (render_effects (props w) s')
       (set_pending [] (set_state s'
          (add_trace (table_effects (props w) (load_error ne)) w)))).
Proof.
  intros H Hp s'. simpl.
  erewrite bind_ok; [|by apply onLoadingError_ok].
  rewrite Hp. simpl.
  callback H "renderError".
  erewrite update_one; [reflexivity|reflexivity| |].
  - unfold viewState. simpl.
    rewrite (prop_union_l _ _ _ WebViewBridgeState.ERROR) by reflexivity.
    intros [=].
  - intros _. split; [done|]. unfold lastErrorEvent. simpl.
    by rewrite (prop_union_l _ _ _ (VObj ne)) by reflexivity.
Qed.

Lemma step_load_finish ne w :
  well_typed_props (props w) = true → pending w = [] →
  let s' := {[ "viewState" := WebViewBridgeState.IDLE ]} ∪ state w in
  step (LoadFinish ne) w
  = (Ok tt,
     add_trace (render_effects (props w) s')
       (set_pending [] (set_state s'
          (add_trace (table_effects (props w) (load_finish ne)) w)))).
Proof.
  intros H Hp s'. simpl.
  erewrite bind_ok; [|by apply onLoadingFinish_ok].
  rewrite Hp. simpl.
  erewrite update_one; [reflexivity|reflexivity| |].
  - unfold viewState. simpl.
    rewrite (prop_union_l _ _ _ WebViewBridgeState.IDLE) by reflexivity.
    intros [=].
  - unfold viewState. simpl.
    rewrite (prop_union_l _ _ _ WebViewBridgeState.IDLE) by reflexivity.
    intros [=].
Qed.

(** ** Sequences of inputs *)

Lemma run_app is1 is2 w :
  run (is1 ++ is2) w = (run is1 ;; run is2) w.
Proof.
  revert w. induction is1 as [|i is1 IH]; intros w; simpl.
  - reflexivity.
  - unfold mbind, M_bind in *. destruct (step i w) as [[[]|e] w1]; [|done].
    apply IH.
Qed.

Lemma lifecycle_step e w :
  well_typed_props (props w) = true → pending w = [] →
  ∃ w', step (deliver e) w = (Ok tt, w') ∧ table_row e w w'.
Proof.
  intros H Hp. destruct e as [ne|ne|ne]; simpl deliver.
  - eexists. split; [by apply step_load_start|].
    unfold table_row. by repeat split.
  - eexists. split; [by apply step_load_error|].
    unfold table_row, viewState, lastErrorEvent; simpl.
    rewrite (prop_union_l _ _ _ WebViewBridgeState.ERROR) by reflexivity.
    rewrite (prop_union_l _ _ _ (VObj ne)) by reflexivity.
    repeat split. by rewrite <- app_assoc.
  - eexists. split; [by apply step_load_finish|].
    unfold table_row, viewState, lastErrorEvent; simpl.
    rewrite (prop_union_l _ _ _ WebViewBridgeState.IDLE) by reflexivity.
    rewrite prop_union_r by reflexivity.
    repeat split. by rewrite <- app_assoc.
Qed.

Lemma lifecycle_run evs w :
  well_typed_props (props w) = true → pending w = [] →
  ∃ w', run (map deliver evs) w = (Ok tt, w')
        ∧ viewState w' = foldl (λ s e, table_state e s) (viewState w) evs
        ∧ props w' = props w ∧ pending w' = [].
Proof.
  revert w. induction evs as [|e evs IH]; intros w H Hp; simpl.
  - by exists w.
  - destruct (lifecycle_step e w H Hp) as (w1 & Hs & Hv & Hps & Hq & _).
    destruct (IH w1) as (w2 & Hr & Hv2 & Hps2 & Hq2); [by rewrite Hps|done|].
    exists w2. erewrite bind_ok by exact Hs.
    rewrite Hr, Hv2, Hv, Hps2, Hps. done.
Qed.

(** C2. For every sequence of native lifecycle events, from any display
    state, the display state follows the transition table: each event is
    handled without an exception and as its row says (load-start leaves the
    world unchanged but for the calls of onLoadStart and then
    onNavigationStateChange; load-error makes the state ERROR, stores the
    event's error record and calls onError then onLoadEnd; load-finish makes
    the state IDLE and calls onLoad, onLoadEnd and then
    onNavigationStateChange), so that after a sequence the state is the
    table's entry for the last event applied to the state before it. *)
Theorem lifecycle_transition_table (w : World) (evs : list Lifecycle)
    (e : Lifecycle) :
  well_typed_props (props w) = true →
  pending w = [] →
  (∃ w', step (deliver e) w = (Ok tt, w') ∧ table_row e w w') ∧
  (∃ w1 w2,
     run (map deliver evs) w = (Ok tt, w1) ∧
     run (map deliver (evs ++ [e])) w = (Ok tt, w2) ∧
     viewState w1 = foldl (λ s e, table_state e s) (viewState w) evs ∧
     viewState w2 = table_state e (viewState w1)).
Proof.
  intros H Hp. split; [by apply lifecycle_step|].
  destruct (lifecycle_run evs w H Hp) as (w1 & Hr & Hv & Hps & Hq).
  destruct (lifecycle_step e w1) as (w2 & Hs & Hv2 & _); [by rewrite Hps|done|].
  exists w1, w2. repeat split; try done.
  rewrite map_app, run_app. erewrite bind_ok by exact Hr.
  simpl. erewrite bind_ok by exact Hs. done.
Qed.

(** ** Where the host calls of a trace come from *)

Lemma invocation_elem f args fn args' :
  HostCall f args ∈ invocation fn args' → fn = VFun f.
Proof.
  destruct fn; simpl; try (by intros ?%elem_of_nil).
  intros H%list_elem_of_singleton. by injection H as -> _.
Qed.

Lemma registered_invocation f args ps k args' :
  k ∈ callback_names →
  HostCall f args ∈ invocation (prop ps k) args' → registered f ps.
Proof. intros Hk H%invocation_elem. by exists k. Qed.

Ltac in_names := unfold callback_names; set_solver.

Lemma render_effects_registered f args ps s :
  HostCall f args ∈ render_effects ps s → registered f ps.
Proof.
  unfold render_effects, overlay_effects. rewrite elem_of_app.
  intros [H|H].
  - repeat case_match; try (by apply elem_of_nil in H).
    + eapply (registered_invocation _ _ _ "renderLoading"); [in_names|done].
    + eapply (registered_invocation _ _ _ "renderError"); [in_names|done].
    + apply list_elem_of_singleton in H. done.
  - apply list_elem_of_fmap in H as (? & [=] & _).
Qed.

Lemma table_effects_registered f args ps e :
  HostCall f args ∈ table_effects ps e → registered f ps.
Proof.
  destruct e; simpl.
  - rewrite elem_of_app. intros [H|H].
    + eapply (registered_invocation _ _ _ "onLoadStart"); [in_names|done].
    + eapply (registered_invocation _ _ _ "onNavigationStateChange");
        [in_names|done].
  - rewrite elem_of_cons, elem_of_app. intros [H|[H|H]]; [done| |].
    + eapply (registered_invocation _ _ _ "onError"); [in_names|done].
    + eapply (registered_invocation _ _ _ "onLoadEnd"); [in_names|done].
  - rewrite !elem_of_app. intros [H|[H|H]].
    + eapply (registered_invocation _ _ _ "onLoad"); [in_names|done].
    + eapply (registered_invocation _ _ _ "onLoadEnd"); [in_names|done].
    + eapply (registered_invocation _ _ _ "onNavigationStateChange");
        [in_names|done].
Qed.

(** ** The two inbound message paths *)

Lemma onMessage_ok e w :
  func_or_absent (prop (props w) "onBridgeMessage") = true →
  onMessage e w = (Ok tt, add_trace (change_effects (props w) (nativeEvent e)) w).
Proof.
  intros F. unfold onMessage, change_effects.
  erewrite bind_ok; [|reflexivity].
  destruct (not_nullish (nativeEvent e)) eqn:E.
  - destruct (prop (props w) "onBridgeMessage"); simpl in *; try done;
      try (by rewrite add_trace_nil).
    erewrite bind_ok; [|by apply member_ok]. reflexivity.
  - rewrite andb_false_r. by rewrite add_trace_nil.
Qed.

Lemma bridgeMessageListener_ok body w :
  func_or_absent (prop (props w) "onBridgeMessage") = true →
  not_nullish body = true →
  bridgeMessageListener body w
  = (Ok tt, add_trace (invocation (prop (props w) "onBridgeMessage")
                                  [member_val body "message"]) w).
Proof.
  intros F Hb. unfold bridgeMessageListener.
  erewrite bind_ok; [|reflexivity].
  erewrite bind_ok; [|by apply member_ok].
  by apply guarded_call.
Qed.

Lemma notify_ok subs eventType body w :
  func_or_absent (prop (props w) "onBridgeMessage") = true →
  not_nullish body = true →
  DeviceEventEmitter.notify subs eventType body w
  = (Ok tt, add_trace (deliveries subs eventType
                         (prop (props w) "onBridgeMessage") body) w).
Proof.
  intros F Hb. revert w F.
  induction subs as [|[n l] subs IH]; intros w F; simpl.
  - by rewrite add_trace_nil.
  - destruct (decide (n = eventType)) as [->|Hne].
    + destruct l. simpl.
      erewrite bind_ok; [|by apply bridgeMessageListener_ok].
      rewrite IH by done. simpl. by norm_trace.
    + erewrite bind_ok; [|reflexivity]. by rewrite IH.
Qed.

Lemma emit_ok eventType body w :
  func_or_absent (prop (props w) "onBridgeMessage") = true →
  not_nullish body = true →
  DeviceEventEmitter.emit eventType body w
  = (Ok tt, add_trace (deliveries (listeners w) eventType
                         (prop (props w) "onBridgeMessage") body) w).
Proof. intros. unfold DeviceEventEmitter.emit. by apply notify_ok. Qed.

Lemma deliveries_registered f args subs eventType ps body :
  HostCall f args
    ∈ deliveries subs eventType (prop ps "onBridgeMessage") body →
  registered f ps.
Proof.
  unfold deliveries. rewrite list_elem_of_In, in_flat_map.
  intros ([n l] & _ & H). apply list_elem_of_In in H.
  case_decide; [|by apply elem_of_nil in H].
  eapply (registered_invocation _ _ _ "onBridgeMessage"); [in_names|done].
Qed.

Lemma change_effects_registered f args ps ne :
  HostCall f args ∈ change_effects ps ne → registered f ps.
Proof.
  unfold change_effects. case_match; [|by intros ?%elem_of_nil].
  intros Hin.
  eapply (registered_invocation _ _ _ "onBridgeMessage"); [in_names|done].
Qed.

(** ** New props *)

Lemma receiveProps_ok ps w :
  well_typed_props ps = true → pending w = [] → error_recorded (state w) →
  receiveProps ps w
  = (Ok tt, add_trace (render_effects ps (state w)) (set_props ps w)).
Proof.
  intros H Hp Herr. unfold receiveProps.
  erewrite bind_ok; [|reflexivity].
  erewrite bind_ok; [|reflexivity].
  callback H "renderLoading". callback H "renderError".
  erewrite bind_ok; [|by apply render_ok; simpl; rewrite ?Hp].
  simpl. rewrite Hp. simpl. destruct w; simpl in *. by subst.
Qed.

(** ** Mounting *)

Lemma mounted_state_view ps :
  prop (mounted_state ps) "viewState"
  = if truthy (prop ps "startInLoadingState")
    then WebViewBridgeState.LOADING else WebViewBridgeState.IDLE.
Proof. unfold mounted_state. by destruct (truthy _). Qed.

Lemma mounted_state_error ps :
  prop (mounted_state ps) "lastErrorEvent" = VNull.
Proof. unfold mounted_state. by destruct (truthy _). Qed.

Lemma mount_ok ps tag w :
  func_or_absent (prop ps "renderLoading") = true →
  mount ps tag w
  = (Ok (rendered ps (mounted_state ps)), mounted_world ps tag w).
Proof.
  intros F. unfold mount, mounted_world, mounted_state, componentWillMount.
  erewrite bind_ok; [|reflexivity].
  destruct (truthy (prop ps "startInLoadingState")) eqn:E.
  - erewrite bind_ok.
    2:{ erewrite bind_ok; [|reflexivity]. erewrite bind_ok; [|reflexivity].
        simpl. rewrite E. reflexivity. }
    erewrite bind_ok; [|reflexivity]. simpl.
    erewrite bind_ok.
    2:{ apply render_branch; simpl; [done|].
        unfold viewState. simpl. intros [=]. }
    reflexivity.
  - erewrite bind_ok.
    2:{ erewrite bind_ok; [|reflexivity]. erewrite bind_ok; [|reflexivity].
        simpl. rewrite E. reflexivity. }
    erewrite bind_ok; [|reflexivity]. simpl.
    erewrite bind_ok.
    2:{ apply render_branch; simpl; [done|].
        unfold viewState. simpl. intros [=]. }
    reflexivity.
Qed.

(** ** The native element *)

Ltac jsx_lookup :=
  unfold webView_jsx, createElement, assign; simpl; unfold prop;
  rewrite ?lookup_delete_ne by done;
  rewrite !lookup_union, !lookup_singleton, lookup_empty;
  repeat case_decide; try done.

Lemma webView_jsx_style props' source sty :
  prop (el_props (webView_jsx props' source sty)) "style" = VArr sty.
Proof. jsx_lookup. by destruct (props' !! _). Qed.

Lemma webView_jsx_javaScriptEnabled props' source sty :
  el_props (webView_jsx props' source sty) !! "javaScriptEnabled"
  = Some (default (VBool true) (props' !! "javaScriptEnabled")).
Proof. jsx_lookup. by destruct (props' !! _). Qed.

Lemma webView_jsx_passthrough props' source sty k :
  k ∉ overridden → k ≠ "javaScriptEnabled" →
  el_props (webView_jsx props' source sty) !! k = props' !! k.
Proof.
  unfold overridden. rewrite !not_elem_of_cons.
  intros (?&?&?&?&?&?&?&?&_) ?.
  jsx_lookup; try congruence. by destruct (props' !! k).
Qed.

Lemma with_ref_fields r tag w :
  props (with_ref r tag w) = props w ∧ state (with_ref r tag w) = state w ∧
  pending (with_ref r tag w) = pending w ∧
  listeners (with_ref r tag w) = listeners w ∧
  trace (with_ref r tag w) = trace w.
Proof. unfold with_ref. by destruct (el_ref _). Qed.

Lemma mounted_world_fields ps tag w :
  props (mounted_world ps tag w) = ps ∧
  state (mounted_world ps tag w) = mounted_state ps ∧
  pending (mounted_world ps tag w) = [] ∧
  listeners (mounted_world ps tag w) = (listeners w ++ [bridge_subscription])%list ∧
  trace (mounted_world ps tag w)
  = (trace w ++ render_effects ps (mounted_state ps))%list.
Proof.
  unfold mounted_world.
  destruct (with_ref_fields (rendered ps (mounted_state ps)) tag
    (add_trace (render_effects ps (mounted_state ps))
       (mkWorld ps (mounted_state ps) [] ∅
          (listeners w ++ [bridge_subscription]) (trace w))))
    as (-> & -> & -> & -> & ->).
  done.
Qed.

(** C3. At mount, before any lifecycle event, the display state is LOADING
    when the startInLoadingState option is set and IDLE otherwise.  In the
    LOADING case the first render keeps the native WebView element but adds
    the hidden style (height 0) to it and shows what the host's renderLoading
    returns when one is supplied; in the IDLE case the WebView carries no
    hidden style and there is no overlay. *)
Theorem mount_display_state (ps : gmap string Val) (tag : Z) (w : World) :
  func_or_absent (prop ps "renderLoading") = true →
  ∃ r w',
    mount ps tag w = (Ok r, w') ∧ pending w' = [] ∧
    el_type (webView r) = "RCTWebViewBridge" ∧
    if truthy (prop ps "startInLoadingState") then
      viewState w' = WebViewBridgeState.LOADING ∧
      prop (el_props (webView r)) "style"
      = VArr [styles.container; prop ps "style"; styles.hidden] ∧
      member_val styles.hidden "height" = VNum 0 ∧
      otherView r = guarded_value (prop ps "renderLoading") [] ∧
      trace w' = (trace w ++ invocation (prop ps "renderLoading") [] ++
                  map ConsoleWarn (deprecation_warnings ps))%list
    else
      viewState w' = WebViewBridgeState.IDLE ∧
      prop (el_props (webView r)) "style"
      = VArr [styles.container; prop ps "style"] ∧
      otherView r = VNull ∧
      trace w' = (trace w ++ map ConsoleWarn (deprecation_warnings ps))%list.
Proof.
  intros F. eexists _, _. split; [by apply mount_ok|].
  destruct (mounted_world_fields ps tag w) as (Hps & Hs & Hq & Hl & Ht).
  split; [done|]. split; [done|].
  unfold viewState. rewrite Hs, Ht.
  unfold rendered, render_effects, overlay, overlay_effects, expected_styles.
  cbn [webView otherView]. rewrite webView_jsx_style, mounted_state_view.
  destruct (truthy (prop ps "startInLoadingState")); simpl; done.
Qed.

Lemma lifecycle_transition_table_witness :
  well_typed_props (props sample_world) = true ∧
  pending sample_world = [] ∧
  (∃ w', step (deliver (load_error sample_error)) sample_world = (Ok tt, w')
         ∧ table_row (load_error sample_error) sample_world w') ∧
  (∃ w1 w2,
     run (map deliver [load_start sample_nav; load_finish sample_nav])
         sample_world = (Ok tt, w1) ∧
     run (map deliver ([load_start sample_nav; load_finish sample_nav]
                       ++ [load_error sample_error]))
         sample_world = (Ok tt, w2) ∧
     viewState w1 = foldl (λ s e, table_state e s) (viewState sample_world)
                          [load_start sample_nav; load_finish sample_nav] ∧
     viewState w2 = table_state (load_error sample_error) (viewState w1)).
Proof.
  assert (well_typed_props (props sample_world) = true) as H1 by (vm_compute; reflexivity).
  assert (pending sample_world = []) as H2 by (vm_compute; reflexivity).
  split; [exact H1|]. split; [exact H2|].
  exact (lifecycle_transition_table sample_world
           [load_start sample_nav; load_finish sample_nav]
           (load_error sample_error) H1 H2).
Defined.

Lemma mount_display_state_witness :
  func_or_absent (prop sample_props "renderLoading") = true ∧
  ∃ r w',
    mount sample_props 7 empty_world = (Ok r, w') ∧ pending w' = [] ∧
    el_type (webView r) = "RCTWebViewBridge" ∧
    if truthy (prop sample_props "startInLoadingState") then
      viewState w' = WebViewBridgeState.LOADING ∧
      prop (el_props (webView r)) "style"
      = VArr [styles.container; prop sample_props "style"; styles.hidden] ∧
      member_val styles.hidden "height" = VNum 0 ∧
      otherView r = guarded_value (prop sample_props "renderLoading") [] ∧
      trace w' = (trace empty_world ++
                  invocation (prop sample_props "renderLoading") [] ++
                  map ConsoleWarn (deprecation_warnings sample_props))%list
    else
      viewState w' = WebViewBridgeState.IDLE ∧
      prop (el_props (webView r)) "style"
      = VArr [styles.container; prop sample_props "style"] ∧
      otherView r = VNull ∧
      trace w' = (trace empty_world ++
                  map ConsoleWarn (deprecation_warnings sample_props))%list.
Proof.
  split; [reflexivity|].
  apply (mount_display_state sample_props 7 empty_world). reflexivity.
Defined.

(** ** Commands *)

(** C5. For every message, sendToBridge issues exactly one command to the
    native view handle, carrying the message, returns no value and leaves the
    display state and the stored error unchanged; goBack, goForward and
    reload each issue exactly one command without payload and leave the
    display state unchanged as well. *)
Theorem commands_issue_one_command (message : Val) (w : World) :
  issues_one_command (sendToBridge message) Commands.sendToBridge
                     (VArr [message]) w ∧
  issues_one_command goBack Commands.goBack VNull w ∧
  issues_one_command goForward Commands.goForward VNull w ∧
  issues_one_command reload Commands.reload VNull w.
Proof. repeat split; by eexists. Qed.

(** ** The props handed to the native view *)

Lemma warnings_app t1 t2 : warnings (t1 ++ t2) = (warnings t1 ++ warnings t2)%list.
Proof.
  induction t1 as [|[] t1 IH]; simpl; try done. by rewrite IH.
Qed.

Lemma warnings_map_warn l : warnings (map ConsoleWarn l) = l.
Proof. induction l as [|m l IH]; simpl; [done|]. by rewrite IH. Qed.

Lemma warnings_invocation fn args : warnings (invocation fn args) = [].
Proof. by destruct fn. Qed.

Lemma warnings_render_effects ps s :
  warnings (render_effects ps s) = deprecation_warnings ps.
Proof.
  unfold render_effects, overlay_effects.
  rewrite warnings_app, warnings_map_warn.
  repeat case_match; by rewrite ?warnings_invocation.
Qed.

(** C10. The javaScriptEnabled option handed to the native view defaults to
    true: render sets it to true before spreading the host's props, so the
    native view gets true when the host omits the prop and the host's own
    value when it supplies one. *)
Theorem javaScriptEnabled_defaults_to_true (w : World) :
  func_or_absent (prop (props w) "renderLoading") = true →
  func_or_absent (prop (props w) "renderError") = true →
  error_recorded (state w) →
  ∃ r w',
    render w = (Ok r, w') ∧
    (props w !! "javaScriptEnabled" = None →
     el_props (webView r) !! "javaScriptEnabled" = Some (VBool true)) ∧
    (∀ v, props w !! "javaScriptEnabled" = Some v →
          el_props (webView r) !! "javaScriptEnabled" = Some v).
Proof.
  intros HL HE Herr. eexists _, _. split; [by apply render_ok|].
  unfold rendered. cbn [webView].
  rewrite webView_jsx_javaScriptEnabled, lookup_delete_ne by done.
  split; [by intros ->|]. by intros v ->.
Qed.

Lemma javaScriptEnabled_defaults_to_true_witness :
  func_or_absent (prop (props sample_world) "renderLoading") = true ∧
  func_or_absent (prop (props sample_world) "renderError") = true ∧
  error_recorded (state sample_world) ∧
  ∃ r w',
    render sample_world = (Ok r, w') ∧
    (props sample_world !! "javaScriptEnabled" = None →
     el_props (webView r) !! "javaScriptEnabled" = Some (VBool true)) ∧
    (∀ v, props sample_world !! "javaScriptEnabled" = Some v →
          el_props (webView r) !! "javaScriptEnabled" = Some v).
Proof.
  assert (error_recorded (state sample_world)) as H3.
  { intros H. vm_compute in H. discriminate H. }
  split; [reflexivity|]. split; [reflexivity|]. split; [exact H3|].
  apply (javaScriptEnabled_defaults_to_true sample_world);
    [reflexivity|reflexivity|exact H3].
Defined.

(** C6, as the code has it. Whenever a legacy flag (javaScriptEnabledAndroid,
    domStorageEnabledAndroid) is truthy, every render emits one deprecation
    warning naming it, and none for a flag that is absent or falsy; every
    host prop other than source and the attributes the component sets itself
    reaches the native view unchanged, the legacy flags included. *)
Theorem deprecation_warning_on_every_render (w : World) :
  func_or_absent (prop (props w) "renderLoading") = true →
  func_or_absent (prop (props w) "renderError") = true →
  error_recorded (state w) →
  ∃ r w',
    render w = (Ok r, w') ∧
    warnings (trace w')
    = (warnings (trace w) ++ deprecation_warnings (props w))%list ∧
    (∀ k, k ∉ overridden → k ≠ "javaScriptEnabled" →
          el_props (webView r) !! k = props w !! k).
Proof.
  intros HL HE Herr. eexists _, _. split; [by apply render_ok|].
  split.
  - simpl. by rewrite warnings_app, warnings_render_effects.
  - intros k Hk Hjs. unfold rendered. cbn [webView].
    rewrite webView_jsx_passthrough by done.
    apply lookup_delete_ne. intros <-. apply Hk. unfold overridden. set_solver.
Qed.

Lemma deprecation_warning_on_every_render_witness :
  func_or_absent (prop (props sample_world) "renderLoading") = true ∧
  func_or_absent (prop (props sample_world) "renderError") = true ∧
  error_recorded (state sample_world) ∧
  ∃ r w',
    render sample_world = (Ok r, w') ∧
    warnings (trace w')
    = (warnings (trace sample_world)
       ++ deprecation_warnings (props sample_world))%list ∧
    (∀ k, k ∉ overridden → k ≠ "javaScriptEnabled" →
          el_props (webView r) !! k = props sample_world !! k).
Proof.
  assert (error_recorded (state sample_world)) as H3.
  { intros H. vm_compute in H. discriminate H. }
  split; [reflexivity|]. split; [reflexivity|]. split; [exact H3|].
  apply (deprecation_warning_on_every_render sample_world);
    [reflexivity|reflexivity|exact H3].
Defined.

(** C6, as stated, fails: a host that sets javaScriptEnabledAndroid and is
    rendered twice (at mount and when its parent renders again) gets the
    deprecation warning twice, not once. *)
Lemma deprecation_warning_repeats :
  let w := snd (lifetime legacy_props 7 [ReceiveProps legacy_props] empty_world) in
  fst (lifetime legacy_props 7 [ReceiveProps legacy_props] empty_world) = Ok tt ∧
  warnings (trace w)
  = ["javaScriptEnabledAndroid is deprecated. Use javaScriptEnabled instead";
     "javaScriptEnabledAndroid is deprecated. Use javaScriptEnabled instead"] ∧
  length (warnings (trace w)) ≠ 1%nat.
Proof. vm_compute. repeat split; discriminate. Qed.

(** ** Every input, from a world at rest *)

Lemma at_rest_add_trace es w : at_rest w → at_rest (add_trace es w).
Proof. by intros (? & ? & ?). Qed.

Lemma registered_app ps es1 es2 :
  (∀ f args, HostCall f args ∈ es1 → registered f ps) →
  (∀ f args, HostCall f args ∈ es2 → registered f ps) →
  ∀ f args, HostCall f args ∈ (es1 ++ es2)%list → registered f ps.
Proof. intros H1 H2 f args [?|?]%elem_of_app; eauto. Qed.

#[local] Arguments table_effects : simpl never.
#[local] Arguments render_effects : simpl never.

(** What one input does to a world at rest: it is handled without an
    exception, the world is at rest again, the subscriptions are untouched,
    and the host functions called are callbacks of the props in force. *)
Lemma step_ok i w :
  at_rest w → input_ok i = true →
  ∃ w' es,
    step i w = (Ok tt, w') ∧ at_rest w' ∧
    listeners w' = listeners w ∧
    props w' = props_after [i] (props w) ∧
    lastErrorEvent w' = error_after [i] (lastErrorEvent w) ∧
    trace w' = (trace w ++ es)%list ∧
    (∀ f args, HostCall f args ∈ es → registered f (props w')).
Proof.
  intros Hr Hi. pose proof Hr as (H & Hp & Herr).
  destruct i as [ne|ne|ne|ne|body|ps| | | |message| ]; simpl in Hi.
  - eexists _, _. split; [by apply step_load_start|].
    split; [by apply at_rest_add_trace|]. repeat split.
    intros f args. apply table_effects_registered.
  - eexists _, (table_effects (props w) (load_error ne)
                ++ render_effects (props w) _)%list.
    split; [by apply step_load_error|].
    unfold at_rest, error_recorded, lastErrorEvent; simpl.
    rewrite (prop_union_l _ _ "lastErrorEvent" (VObj ne)) by reflexivity.
    repeat split; eauto.
    + by rewrite <- app_assoc.
    + apply (registered_app _ (table_effects (props w) (load_error ne))).
      * intros f args. apply table_effects_registered.
      * intros f args. apply render_effects_registered.
  - eexists _, (table_effects (props w) (load_finish ne)
                ++ render_effects (props w) _)%list.
    split; [by apply step_load_finish|].
    unfold at_rest, error_recorded, lastErrorEvent; simpl.
    rewrite (prop_union_l _ _ "viewState" WebViewBridgeState.IDLE) by reflexivity.
    rewrite (prop_union_r _ _ "lastErrorEvent") by reflexivity.
    repeat split; eauto; try done.
    + by rewrite <- app_assoc.
    + apply (registered_app _ (table_effects (props w) (load_finish ne))).
      * intros f args. apply table_effects_registered.
      * intros f args. apply render_effects_registered.
  - callback H "onBridgeMessage".
    eexists _, _. split.
    { simpl. erewrite bind_ok; [|by apply onMessage_ok]. by apply update_idle. }
    split; [by apply at_rest_add_trace|]. repeat split.
    intros f args. apply change_effects_registered.
  - callback H "onBridgeMessage".
    eexists _, _. split.
    { simpl. erewrite bind_ok; [|by apply emit_ok]. by apply update_idle. }
    split; [by apply at_rest_add_trace|]. repeat split.
    intros f args. apply deliveries_registered.
  - eexists _, _. split; [by apply receiveProps_ok|].
    repeat split; try done.
    intros f args. apply render_effects_registered.
  - eexists _, _. split; [reflexivity|]. split; [by apply at_rest_add_trace|].
    repeat split. by intros f args [=]%list_elem_of_singleton.
  - eexists _, _. split; [reflexivity|]. split; [by apply at_rest_add_trace|].
    repeat split. by intros f args [=]%list_elem_of_singleton.
  - eexists _, _. split; [reflexivity|]. split; [by apply at_rest_add_trace|].
    repeat split. by intros f args [=]%list_elem_of_singleton.
  - eexists _, _. split; [reflexivity|]. split; [by apply at_rest_add_trace|].
    repeat split. by intros f args [=]%list_elem_of_singleton.
  - exists (set_refs ∅ w), []. split; [reflexivity|]. split; [done|].
    repeat split; simpl; try done.
    + by rewrite app_nil_r.
    + by intros f args ?%elem_of_nil.
Qed.

Lemma props_given_step i ps inputs ps' :
  ps' ∈ props_given (props_after [i] ps) inputs →
  ps' ∈ props_given ps (i :: inputs).
Proof.
  unfold props_given. destruct i; simpl; rewrite ?elem_of_cons; tauto.
Qed.

Lemma props_after_head i ps inputs :
  props_after [i] ps ∈ props_given ps (i :: inputs).
Proof.
  unfold props_given. destruct i; simpl; rewrite ?elem_of_cons; tauto.
Qed.

Lemma run_ok inputs w :
  at_rest w → forallb input_ok inputs = true →
  ∃ w' es,
    run inputs w = (Ok tt, w') ∧ at_rest w' ∧
    listeners w' = listeners w ∧
    props w' = props_after inputs (props w) ∧
    lastErrorEvent w' = error_after inputs (lastErrorEvent w) ∧
    trace w' = (trace w ++ es)%list ∧
    (∀ f args, HostCall f args ∈ es →
               ∃ ps', ps' ∈ props_given (props w) inputs ∧ registered f ps').
Proof.
  revert w. induction inputs as [|i inputs IH]; intros w Hr Hin.
  - exists w, []. simpl. rewrite app_nil_r.
    do 6 (split; [done|]).
    by intros f args ?%elem_of_nil.
  - simpl in Hin. apply andb_true_iff in Hin as [Hi Hin'].
    destruct (step_ok i w Hr Hi) as (w1 & es1 & Hs & Hr1 & Hl1 & Hp1 & He1 & Ht1 & Hc1).
    destruct (IH w1 Hr1 Hin') as (w2 & es2 & Hs2 & Hr2 & Hl2 & Hp2 & He2 & Ht2 & Hc2).
    exists w2, (es1 ++ es2)%list. simpl run.
    erewrite bind_ok by exact Hs.
    split; [done|]. split; [done|]. split; [congruence|].
    split; [by rewrite Hp2, Hp1|]. split; [by rewrite He2, He1|].
    split; [by rewrite Ht2, Ht1, app_assoc|].
    intros f args [Hf|Hf]%elem_of_app.
    + exists (props w1). split; [|by apply (Hc1 f args)].
      rewrite Hp1. apply props_after_head.
    + destruct (Hc2 f args Hf) as (ps' & Hps' & Hreg).
      exists ps'. split; [|done]. apply props_given_step. by rewrite <- Hp1.
Qed.

Lemma at_rest_mounted ps tag w :
  well_typed_props ps = true → at_rest (mounted_world ps tag w).
Proof.
  intros H. destruct (mounted_world_fields ps tag w) as (Hps & Hs & Hq & _).
  unfold at_rest, error_recorded. rewrite Hps, Hs, Hq, mounted_state_view.
  repeat split; try done. by destruct (truthy _).
Qed.

(** A whole life under well-typed props: no exception, and the world at the
    end is described by the inputs. *)
Lemma lifetime_ok ps tag inputs w0 :
  well_typed_props ps = true → forallb input_ok inputs = true →
  ∃ w es,
    lifetime ps tag inputs w0 = (Ok tt, w) ∧ at_rest w ∧
    listeners w = (listeners w0 ++ [bridge_subscription])%list ∧
    props w = props_after inputs ps ∧
    lastErrorEvent w = error_after inputs VNull ∧
    trace w = (trace w0 ++ es)%list ∧
    (∀ f args, HostCall f args ∈ es →
               ∃ ps', ps' ∈ props_given ps inputs ∧ registered f ps').
Proof.
  intros H Hin. callback H "renderLoading".
  pose proof (at_rest_mounted ps tag w0 H) as Hr.
  destruct (mounted_world_fields ps tag w0) as (Hps & Hs & Hq & Hl & Ht).
  destruct (run_ok inputs _ Hr Hin)
    as (w & es & Hrun & Hr' & Hl' & Hp' & He' & Ht' & Hc').
  exists w, (render_effects ps (mounted_state ps) ++ es)%list.
  unfold lifetime. erewrite bind_ok by (by apply mount_ok).
  split; [done|]. split; [done|]. split; [congruence|].
  split; [by rewrite Hp', Hps|].
  split.
  { rewrite He'. unfold lastErrorEvent. by rewrite Hs, mounted_state_error. }
  split; [by rewrite Ht', Ht, app_assoc|].
  intros f args [Hf|Hf]%elem_of_app.
  - exists ps. split; [unfold props_given; apply elem_of_cons; by left|].
    by eapply render_effects_registered.
  - rewrite Hps in Hc'. by apply (Hc' f args).
Qed.

(** ** The event relay *)

Lemma step_bridge_message body w :
  func_or_absent (prop (props w) "onBridgeMessage") = true →
  pending w = [] → listeners w = [bridge_subscription] →
  step (BridgeMessage body) w
  = (Ok tt, add_trace (invocation (prop (props w) "onBridgeMessage")
                                  [prop body "message"]) w).
Proof.
  intros F Hp Hl. simpl.
  erewrite bind_ok; [|by apply emit_ok].
  rewrite update_idle by done. rewrite Hl. simpl. by rewrite app_nil_r.
Qed.

Lemma run_bridge_messages bodies w :
  func_or_absent (prop (props w) "onBridgeMessage") = true →
  pending w = [] → listeners w = [bridge_subscription] →
  run (map BridgeMessage bodies) w
  = (Ok tt, add_trace (flat_map (λ body, invocation (prop (props w) "onBridgeMessage")
                                                    [prop body "message"]) bodies) w).
Proof.
  revert w. induction bodies as [|body bodies IH]; intros w F Hp Hl.
  - simpl. by rewrite add_trace_nil.
  - simpl map. simpl run.
    erewrite bind_ok; [|by apply step_bridge_message].
    rewrite IH by done. simpl. by norm_trace.
Qed.

Lemma flat_map_invocation f (bodies : list (gmap string Val)) :
  flat_map (λ body, invocation (VFun f) [prop body "message"]) bodies
  = map (λ body, HostCall f [prop body "message"]) bodies.
Proof. induction bodies as [|b bodies IH]; simpl; [done|]. by f_equal. Qed.

(** C4. Every event on the subscribed stream is relayed at once and in
    order: when the host registered onBridgeMessage, a run of stream events
    adds to the trace exactly one call of it per event, with that event's
    message, in delivery order and nothing else; when no callback is
    registered the events leave the world as it was. *)
Theorem bridge_messages_relayed_in_order (ps : gmap string Val) (tag : Z)
    (inputs : list Input) (bodies : list (gmap string Val)) :
  well_typed_props ps = true →
  forallb input_ok inputs = true →
  ∃ w, lifetime ps tag inputs empty_world = (Ok tt, w) ∧
       (∀ f, prop (props w) "onBridgeMessage" = VFun f →
             run (map BridgeMessage bodies) w
             = (Ok tt, add_trace (map (λ body, HostCall f [prop body "message"])
                                      bodies) w)) ∧
       (truthy (prop (props w) "onBridgeMessage") = false →
        run (map BridgeMessage bodies) w = (Ok tt, w)).
Proof.
  intros H Hin.
  destruct (lifetime_ok ps tag inputs empty_world H Hin)
    as (w & es & Hrun & (Hw & Hp & Herr) & Hl & _).
  exists w. split; [done|]. callback Hw "onBridgeMessage".
  pose proof (run_bridge_messages bodies w F Hp Hl) as Hb.
  split.
  - intros f Hf. rewrite Hb, Hf. by rewrite flat_map_invocation.
  - intros Hf. rewrite Hb.
    replace (flat_map _ bodies) with (@nil Effect); [by rewrite add_trace_nil|].
    clear Hb. induction bodies as [|b bodies IH]; simpl; [done|].
    rewrite <- IH.
    destruct (prop (props w) "onBridgeMessage"); simpl in *; done.
Qed.

Lemma bridge_messages_relayed_in_order_witness :
  well_typed_props sample_props = true ∧
  forallb input_ok [LoadStart sample_nav; LoadFinish sample_nav] = true ∧
  ∃ w, lifetime sample_props 7 [LoadStart sample_nav; LoadFinish sample_nav]
                empty_world = (Ok tt, w) ∧
       (∀ f, prop (props w) "onBridgeMessage" = VFun f →
             run (map BridgeMessage [ping; sample_nav; ping]) w
             = (Ok tt, add_trace (map (λ body, HostCall f [prop body "message"])
                                      [ping; sample_nav; ping]) w)) ∧
       (truthy (prop (props w) "onBridgeMessage") = false →
        run (map BridgeMessage [ping; sample_nav; ping]) w = (Ok tt, w)).
Proof.
  split; [reflexivity|]. split; [reflexivity|].
  apply (bridge_messages_relayed_in_order sample_props 7
           [LoadStart sample_nav; LoadFinish sample_nav]
           [ping; sample_nav; ping]); reflexivity.
Defined.

(** C1, as the code has it. The listener registered at mount is never
    released: unmounting leaves the emitter's subscriptions as they were, so
    for the rest of the instance's life, after unmount too, a stream event
    invokes onBridgeMessage (when one is registered) with the event's
    message. *)
Theorem subscription_outlives_unmount (ps : gmap string Val) (tag : Z)
    (before after : list Input) (body : gmap string Val) :
  well_typed_props ps = true →
  forallb input_ok (before ++ Unmount :: after) = true →
  (∀ w, listeners (unmount w).2 = listeners w) ∧
  ∃ w, lifetime ps tag (before ++ Unmount :: after) empty_world = (Ok tt, w) ∧
       listeners w = [bridge_subscription] ∧
       step (BridgeMessage body) w
       = (Ok tt, add_trace (invocation (prop (props w) "onBridgeMessage")
                                       [prop body "message"]) w).
Proof.
  intros H Hin. split; [done|].
  destruct (lifetime_ok ps tag _ empty_world H Hin)
    as (w & es & Hrun & (Hw & Hp & Herr) & Hl & _).
  exists w. split; [done|]. split; [done|].
  callback Hw "onBridgeMessage". by apply step_bridge_message.
Qed.

Lemma subscription_outlives_unmount_witness :
  well_typed_props listening_props = true ∧
  forallb input_ok ([LoadFinish sample_nav] ++ Unmount :: [CallReload]) = true ∧
  (∀ w, listeners (unmount w).2 = listeners w) ∧
  ∃ w, lifetime listening_props 7
         ([LoadFinish sample_nav] ++ Unmount :: [CallReload]) empty_world
       = (Ok tt, w) ∧
       listeners w = [bridge_subscription] ∧
       step (BridgeMessage ping) w
       = (Ok tt, add_trace (invocation (prop (props w) "onBridgeMessage")
                                       [prop ping "message"]) w).
Proof.
  split; [reflexivity|]. split; [reflexivity|].
  apply (subscription_outlives_unmount listening_props 7
           [LoadFinish sample_nav] [CallReload] ping); reflexivity.
Defined.

(** C1, as stated, fails: a host that listens to bridge messages mounts the
    component and unmounts it; nothing has been called so far, and the next
    stream event still calls onBridgeMessage with its message. *)
Lemma callback_invoked_after_unmount :
  let w := (lifetime listening_props 7 [Unmount] empty_world).2 in
  (lifetime listening_props 7 [Unmount] empty_world).1 = Ok tt ∧
  trace w = [] ∧
  (step (BridgeMessage ping) w).1 = Ok tt ∧
  trace (step (BridgeMessage ping) w).2 = [HostCall 1 [VStr "ping"]].
Proof. vm_compute. repeat split. Qed.

(** ** The error record is kept by every operation *)

Section ErrorSafe.

Lemma preserves_ret {A} (a : A) : preserves error_safe (mret a).
  Proof. by intros w. Qed.

Lemma preserves_throw {A} e : preserves error_safe (@throw A e).
  Proof. by intros w. Qed.

Lemma preserves_bind {A B} (m : M A) (k : A → M B) :
    preserves error_safe m → (∀ a, preserves error_safe (k a)) →
    preserves error_safe (m ≫= k).
  Proof.
    intros Hm Hk w Jw. specialize (Hm w Jw).
    unfold mbind, M_bind. destruct (m w) as [[a|e] w1]; simpl in *; [|done].
    by apply Hk.
  Qed.

Lemma preserves_get_props : preserves error_safe get_props.
  Proof. by intros w. Qed.

Lemma preserves_get_state : preserves error_safe get_state.
  Proof. by intros w. Qed.

Lemma preserves_get_refs : preserves error_safe get_refs.
  Proof. by intros w. Qed.

Lemma preserves_effect e : preserves error_safe (effect e).
  Proof. by intros w. Qed.

Lemma preserves_call fn args : preserves error_safe (call fn args).
  Proof. intros w Jw. by destruct fn. Qed.

Lemma preserves_member v k : preserves error_safe (member v k).
  Proof. intros w Jw. unfold member. by destruct (not_nullish v). Qed.

Lemma preserves_setState p :
    safe_partial p → preserves error_safe (setState p).
  Proof.
    intros Hp w [Hs Hq]. split; [done|]. simpl.
    apply Forall_app. split; [done|]. by apply Forall_singleton.
  Qed.

Lemma merge_error_recorded q s :
    error_recorded s → Forall safe_partial q →
    error_recorded (foldl (λ s partial, partial ∪ s) s q).
  Proof.
    revert s. induction q as [|p q IH]; intros s Hs Hq; simpl; [done|].
    inversion_clear Hq as [|? ? Hp Hq']. apply IH; [apply Hp|done].
  Qed.

Lemma preserves_apply_pending : preserves error_safe apply_pending.
  Proof.
    intros w [Hs Hq]. split; simpl; [by apply merge_error_recorded|done].
  Qed.

Lemma preserves_attach_ref r tag : preserves error_safe (attach_ref r tag).
  Proof.
    intros w Jw. simpl. unfold error_safe.
    by destruct (with_ref_fields r tag w) as (_ & -> & -> & _).
  Qed.

Lemma safe_partial_view v :
    v ≠ WebViewBridgeState.ERROR → safe_partial {[ "viewState" := v ]}.
  Proof.
    intros Hv s. unfold error_recorded.
    rewrite (prop_union_l _ _ "viewState" v) by reflexivity. done.
  Qed.

Lemma safe_partial_error o :
    safe_partial (<[ "lastErrorEvent" := VObj o ]>
                  {[ "viewState" := WebViewBridgeState.ERROR ]}).
  Proof.
    intros s _. exists o.
    by rewrite (prop_union_l _ _ "lastErrorEvent" (VObj o)) by reflexivity.
  Qed.

Ltac preserve :=
    repeat first
      [ apply preserves_ret | apply preserves_throw
      | apply preserves_get_props | apply preserves_get_state
      | apply preserves_get_refs | apply preserves_effect
      | apply preserves_call | apply preserves_member
      | apply preserves_apply_pending | apply preserves_attach_ref
      | match goal with
        | |- preserves _ (mbind _ _) => apply preserves_bind; [|intros ?]
        | |- preserves _ (if ?b then _ else _) => destruct b
        | |- preserves _ (let _ := _ in _) => cbv zeta
        end ].

Lemma preserves_render : preserves error_safe render.
  Proof. unfold render. preserve. Qed.

Lemma preserves_update : preserves error_safe update.
  Proof.
    intros w Jw. unfold update. destruct (pending w) eqn:E; [done|].
    revert w Jw E.
    assert (preserves error_safe (apply_pending ;; render ;; mret tt)) as Hp.
    { preserve. apply preserves_render. }
    intros w Jw _. by apply Hp.
  Qed.

Lemma preserves_notify subs eventType body :
    preserves error_safe (DeviceEventEmitter.notify subs eventType body).
  Proof.
    induction subs as [|[n l] subs IH]; simpl; preserve; [|done].
    destruct l. unfold call_listener, bridgeMessageListener. preserve.
  Qed.

Lemma preserves_step i : preserves error_safe (step i).
  Proof.
    destruct i; simpl.
    - unfold onLoadingStart, updateNavigationState, console.error.
      preserve; apply preserves_update.
    - unfold onLoadingError. preserve; try apply preserves_update.
      all: apply preserves_setState, safe_partial_error.
    - unfold onLoadingFinish, updateNavigationState.
      preserve; try apply preserves_update.
      all: by apply preserves_setState, safe_partial_view.
    - unfold onMessage. preserve; apply preserves_update.
    - apply preserves_bind; [|intros; apply preserves_update].
      intros w Jw. by apply preserves_notify.
    - unfold receiveProps. preserve; try apply preserves_render.
    - unfold goForward, getWebViewBridgeHandle,
        UIManager.dispatchViewManagerCommand. preserve.
    - unfold goBack, getWebViewBridgeHandle,
        UIManager.dispatchViewManagerCommand. preserve.
    - unfold reload, getWebViewBridgeHandle,
        UIManager.dispatchViewManagerCommand. preserve.
    - unfold sendToBridge, getWebViewBridgeHandle,
        UIManager.dispatchViewManagerCommand. preserve.
    - by intros w.
  Qed.

Lemma preserves_run inputs : preserves error_safe (run inputs).
  Proof.
    induction inputs as [|i inputs IH]; simpl; preserve; [|done].
    apply preserves_step.
  Qed.

Lemma mount_error_safe ps tag w : error_safe (mount ps tag w).2.
  Proof.
    assert (error_safe (constructor ps w).2) as Hc.
    { split; simpl; [|done]. intros [=]. }
    unfold mount. unfold mbind at 1. unfold M_bind.
    destruct (constructor ps w) as [[[]|e] w1] eqn:E; simpl in Hc; [|done].
    revert w1 Hc E.
    assert (preserves error_safe
              (componentWillMount ;; apply_pending ;; r ← render;
               attach_ref r tag ;; mret r)) as Hp.
    { unfold componentWillMount. preserve; try apply preserves_render.
      all: by apply preserves_setState, safe_partial_view. }
    intros w1 Hc _. by apply Hp.
  Qed.

Lemma lifetime_error_safe ps tag inputs w :
    error_safe (lifetime ps tag inputs w).2.
  Proof.
    unfold lifetime, mbind, M_bind.
    pose proof (mount_error_safe ps tag w) as Hm.
    destruct (mount ps tag w) as [[r|e] w1]; simpl in *; [|done].
    by apply preserves_run.
  Qed.

End ErrorSafe.

(** ** No read of a missing error record *)

Lemma null_free_ret {A} (a : A) : null_free (mret a).
Proof. by intros w. Qed.

Lemma null_free_bind {A B} (m : M A) (k : A → M B) :
  null_free m → (∀ a, null_free (k a)) → null_free (m ≫= k).
Proof.
  intros Hm Hk w. specialize (Hm w). unfold mbind, M_bind.
  destruct (m w) as [[a|e] w1]; simpl in *; [apply Hk|].
  intros [= ->]. by apply Hm.
Qed.

Lemma null_free_effect e : null_free (effect e).
Proof. by intros w. Qed.

Lemma null_free_call fn args : null_free (call fn args).
Proof. intros w. by destruct fn. Qed.

Lemma null_free_member v k : not_nullish v = true → null_free (member v k).
Proof. intros H w. unfold member. by rewrite H. Qed.

Lemma render_null_free w :
  error_recorded (state w) → (render w).1 ≠ Throw TypeError_null.
Proof.
  intros Herr. unfold render.
  erewrite bind_ok; [|reflexivity]. erewrite bind_ok; [|reflexivity].
  revert w Herr. intros [ps s q rs ls t] Herr. simpl in Herr. simpl props.
  simpl state.
  apply null_free_bind.
  - destruct (strict_eq (prop s "viewState") WebViewBridgeState.LOADING).
    { destruct (truthy _); [apply null_free_call|apply null_free_ret]. }
    destruct (strict_eq (prop s "viewState") WebViewBridgeState.ERROR) eqn:EE.
    { apply strict_eq_str in EE. destruct (Herr EE) as [o Ho].
      cbv zeta. rewrite Ho.
      destruct (truthy _); [|apply null_free_ret].
      repeat (apply null_free_bind; [by apply null_free_member|intros ?]).
      apply null_free_call. }
    destruct (negb _); [|apply null_free_ret].
    apply null_free_bind; [apply null_free_effect|intros ?; apply null_free_ret].
  - intros otherView. cbv zeta.
    repeat (apply null_free_bind;
            [destruct (truthy _);
             [apply null_free_bind;
              [apply null_free_effect|intros ?; apply null_free_ret]
             |apply null_free_ret]
            |intros ?]).
    apply null_free_ret.
Qed.

(** C9. Whenever the view state of an instance is ERROR, the stored
    lastErrorEvent is an object, never null: the state starts IDLE, and the
    only update that sets ERROR stores the error event with it.  This holds
    after any inputs and under any props, also when a run was cut short by an
    exception; hence the ERROR branch of render never reads a property of a
    null error record. *)
Theorem error_state_has_error_record (ps : gmap string Val) (tag : Z)
    (inputs : list Input) (w0 : World) :
  let w := (lifetime ps tag inputs w0).2 in
  viewState w = WebViewBridgeState.ERROR →
  (∃ o, lastErrorEvent w = VObj o) ∧ (render w).1 ≠ Throw TypeError_null.
Proof.
  intros w HE.
  destruct (lifetime_error_safe ps tag inputs w0) as [Herr _]. fold w in Herr.
  split; [by apply Herr|by apply render_null_free].
Qed.

Lemma error_state_has_error_record_witness :
  let w := (lifetime sample_props 7
              [LoadStart sample_nav; LoadError sample_error] empty_world).2 in
  viewState w = WebViewBridgeState.ERROR ∧
  (∃ o, lastErrorEvent w = VObj o) ∧ (render w).1 ≠ Throw TypeError_null.
Proof.
  assert (viewState (lifetime sample_props 7
            [LoadStart sample_nav; LoadError sample_error] empty_world).2
          = WebViewBridgeState.ERROR) as H by (vm_compute; reflexivity).
  split; [exact H|].
  exact (error_state_has_error_record sample_props 7
           [LoadStart sample_nav; LoadError sample_error] empty_world H).
Defined.

(** ** The error renderer *)

(** C7. One error record is kept: after any inputs the stored lastErrorEvent
    is the payload of the latest load-error event (null when there was
    none), earlier ones being overwritten.  Whenever the display state is
    ERROR, render hides the WebView and, when the host supplied renderError,
    calls it exactly once with the domain, code and description of that
    latest event. *)
Theorem error_renderer_gets_latest_error (ps : gmap string Val) (tag : Z)
    (inputs : list Input) :
  well_typed_props ps = true →
  forallb input_ok inputs = true →
  ∃ w, lifetime ps tag inputs empty_world = (Ok tt, w) ∧
       lastErrorEvent w = error_after inputs VNull ∧
       (viewState w = WebViewBridgeState.ERROR →
        ∃ ne r,
          error_after inputs VNull = VObj ne ∧
          render w
          = (Ok r,
             add_trace (invocation (prop (props w) "renderError")
                          [prop ne "domain"; prop ne "code";
                           prop ne "description"]
                        ++ map ConsoleWarn (deprecation_warnings (props w))) w) ∧
          prop (el_props (webView r)) "style"
          = VArr [styles.container; prop (props w) "style"; styles.hidden] ∧
          otherView r
          = guarded_value (prop (props w) "renderError")
              [prop ne "domain"; prop ne "code"; prop ne "description"]).
Proof.
  intros H Hin.
  destruct (lifetime_ok ps tag inputs empty_world H Hin)
    as (w & es & Hrun & (Hw & Hp & Herr) & Hl & Hps & He & _).
  exists w. split; [done|]. split; [done|].
  intros HE. destruct (Herr HE) as [ne Hne]. exists ne.
  callback Hw "renderLoading". callback Hw "renderError".
  exists (rendered (props w) (state w)). split; [by rewrite <- He|].
  rewrite render_ok by done.
  unfold rendered, render_effects, overlay, overlay_effects, expected_styles.
  cbn [webView otherView]. rewrite webView_jsx_style.
  unfold viewState, lastErrorEvent in *. rewrite HE, Hne. done.
Qed.

Lemma error_renderer_gets_latest_error_witness :
  well_typed_props sample_props = true ∧
  forallb input_ok [LoadError sample_nav; LoadStart sample_nav;
                    LoadError sample_error] = true ∧
  ∃ w, lifetime sample_props 7
         [LoadError sample_nav; LoadStart sample_nav; LoadError sample_error]
         empty_world = (Ok tt, w) ∧
       lastErrorEvent w
       = error_after [LoadError sample_nav; LoadStart sample_nav;
                      LoadError sample_error] VNull ∧
       (viewState w = WebViewBridgeState.ERROR →
        ∃ ne r,
          error_after [LoadError sample_nav; LoadStart sample_nav;
                       LoadError sample_error] VNull = VObj ne ∧
          render w
          = (Ok r,
             add_trace (invocation (prop (props w) "renderError")
                          [prop ne "domain"; prop ne "code";
                           prop ne "description"]
                        ++ map ConsoleWarn (deprecation_warnings (props w))) w) ∧
          prop (el_props (webView r)) "style"
          = VArr [styles.container; prop (props w) "style"; styles.hidden] ∧
          otherView r
          = guarded_value (prop (props w) "renderError")
              [prop ne "domain"; prop ne "code"; prop ne "description"]).
Proof.
  split; [reflexivity|]. split; [reflexivity|].
  apply (error_renderer_gets_latest_error sample_props 7
           [LoadError sample_nav; LoadStart sample_nav; LoadError sample_error]);
    reflexivity.
Defined.

(** The example of the spec: the error event {domain: "NET", code: -6,
    description: "timeout"} reaches renderError as ("NET", -6, "timeout"). *)
Example error_renderer_example :
  trace (step (LoadError sample_error)
              (set_trace [] sample_world)).2
  = [EventPersist (mkEvent (VObj sample_error));
     HostCall 5 [VEvent (VObj sample_error)];
     HostCall 4 [VEvent (VObj sample_error)];
     HostCall 8 [VStr "NET"; VNum (-6); VStr "timeout"];
     ConsoleWarn "javaScriptEnabledAndroid is deprecated. Use javaScriptEnabled instead"].
Proof. vm_compute. reflexivity. Qed.

(** ** The component never throws *)

Lemma strict_eq_false_ne v s : strict_eq v (VStr s) = false → v ≠ VStr s.
Proof. intros H Hv. apply strict_eq_str in Hv. congruence. Qed.

(** C8. Under props that obey the prop types (each callback a function or
    absent) no bridge or lifecycle event makes the component throw: a whole
    life of inputs is handled without an exception, every host function that
    was called is a callback of props the host supplied, so an absent
    callback is skipped; and a render in a display state outside IDLE,
    LOADING and ERROR returns as well, after logging the defect with
    console.error. *)
Theorem component_never_throws (ps : gmap string Val) (tag : Z)
    (inputs : list Input) (w0 : World) :
  well_typed_props ps = true →
  forallb input_ok inputs = true →
  strict_eq (viewState w0) WebViewBridgeState.LOADING = false →
  strict_eq (viewState w0) WebViewBridgeState.ERROR = false →
  strict_eq (viewState w0) WebViewBridgeState.IDLE = false →
  (∃ w, lifetime ps tag inputs empty_world = (Ok tt, w) ∧
        ∀ f args, HostCall f args ∈ trace w →
                  ∃ ps', ps' ∈ props_given ps inputs ∧ registered f ps') ∧
  (∃ r, render w0
        = (Ok r,
           add_trace
             (ConsoleError ("RCTWebViewBridge invalid state encountered: "
                            +:+ to_js_string (prop (state w0) "loading"))
              :: map ConsoleWarn (deprecation_warnings (props w0))) w0)).
Proof.
  intros H Hin HL HE HI. split.
  - destruct (lifetime_ok ps tag inputs empty_world H Hin)
      as (w & es & Hrun & _ & _ & _ & _ & Ht & Hc).
    exists w. split; [done|]. intros f args Hf. rewrite Ht in Hf.
    by apply (Hc f args).
  - eexists. rewrite render_branch.
    + unfold render_effects, overlay_effects. unfold viewState in *.
      by rewrite HL, HE, HI.
    + intros Hv. by apply strict_eq_false_ne in HL.
    + intros Hv. by apply strict_eq_false_ne in HE.
Qed.

Lemma component_never_throws_witness :
  well_typed_props sample_props = true ∧
  forallb input_ok [LoadStart sample_nav; LoadError sample_error;
                    Change VNull; BridgeMessage ping; LoadFinish sample_nav;
                    ReceiveProps listening_props; CallSendToBridge (VStr "hello");
                    Unmount; BridgeMessage ping; CallGoBack] = true ∧
  strict_eq (viewState bogus_world) WebViewBridgeState.LOADING = false ∧
  strict_eq (viewState bogus_world) WebViewBridgeState.ERROR = false ∧
  strict_eq (viewState bogus_world) WebViewBridgeState.IDLE = false ∧
  (∃ w, lifetime sample_props 7
          [LoadStart sample_nav; LoadError sample_error;
           Change VNull; BridgeMessage ping; LoadFinish sample_nav;
           ReceiveProps listening_props; CallSendToBridge (VStr "hello");
           Unmount; BridgeMessage ping; CallGoBack] empty_world = (Ok tt, w) ∧
        ∀ f args, HostCall f args ∈ trace w →
                  ∃ ps', ps' ∈ props_given sample_props
                                 [LoadStart sample_nav; LoadError sample_error;
                                  Change VNull; BridgeMessage ping;
                                  LoadFinish sample_nav;
                                  ReceiveProps listening_props;
                                  CallSendToBridge (VStr "hello");
                                  Unmount; BridgeMessage ping; CallGoBack]
                       ∧ registered f ps') ∧
  (∃ r, render bogus_world
        = (Ok r,
           add_trace
             (ConsoleError ("RCTWebViewBridge invalid state encountered: "
                            +:+ to_js_string (prop (state bogus_world) "loading"))
              :: map ConsoleWarn (deprecation_warnings (props bogus_world)))
             bogus_world)).
Proof.
  split; [reflexivity|]. split; [reflexivity|]. split; [reflexivity|].
  split; [reflexivity|]. split; [reflexivity|].
  apply (component_never_throws sample_props 7
           [LoadStart sample_nav; LoadError sample_error;
            Change VNull; BridgeMessage ping; LoadFinish sample_nav;
            ReceiveProps listening_props; CallSendToBridge (VStr "hello");
            Unmount; BridgeMessage ping; CallGoBack] bogus_world);
    reflexivity.
Defined.

(** ** What becomes of a legacy flag's value *)

(** render computes the locals javaScriptEnabled and domStorageEnabled from
    the legacy flags but builds the element from the host's props alone: with
    only domStorageEnabledAndroid set, the native view gets the legacy prop
    itself and no domStorageEnabled at all. *)
Example legacy_value_is_not_forwarded :
  let r := rendered legacy_storage_props (mounted_state legacy_storage_props) in
  (mount legacy_storage_props 7 empty_world).1 = Ok r ∧
  el_props (webView r) !! "domStorageEnabled" = None ∧
  el_props (webView r) !! "domStorageEnabledAndroid" = Some (VBool true) ∧
  el_props (webView r) !! "javaScriptEnabled" = Some (VBool true).
Proof. vm_compute. repeat split. Qed.

(** * Further properties of the code *)

(** ** A frame rule for the methods

    Each method is built from a handful of primitives.  A property of worlds
    that every primitive a method uses keeps is kept by the method, whatever
    the props are and whether the method returns or throws. *)

Section Frame.

Variable J : World → Prop.

Hypothesis J_trace : ∀ w es, J w → J (add_trace es w).
Hypothesis J_props : ∀ w ps, J w → J (set_props ps w).
Hypothesis J_refs : ∀ w r, J w → J (set_refs r w).
Hypothesis J_queue :
  ∀ w p, used_partial p → J w → J (set_pending (pending w ++ [p]) w).
Hypothesis J_merge : ∀ w, J w → J (apply_pending w).2.

Lemma keeps_ret {A} (a : A) : preserves J (mret a).
Proof. by intros w. Qed.

Lemma keeps_throw {A} e : preserves J (@throw A e).
Proof. by intros w. Qed.

Lemma keeps_bind {A B} (m : M A) (k : A → M B) :
  preserves J m → (∀ a, preserves J (k a)) → preserves J (m ≫= k).
Proof.
  intros Hm Hk w Jw. specialize (Hm w Jw).
  unfold mbind, M_bind. destruct (m w) as [[a|e] w1]; simpl in *; [|done].
  by apply Hk.
Qed.

Lemma keeps_get_props : preserves J get_props.
Proof. by intros w. Qed.

Lemma keeps_get_state : preserves J get_state.
Proof. by intros w. Qed.

Lemma keeps_get_refs : preserves J get_refs.
Proof. by intros w. Qed.

Lemma keeps_effect e : preserves J (effect e).
Proof. intros w Jw. by apply (J_trace w [e]). Qed.

Lemma keeps_call fn args : preserves J (call fn args).
Proof.
  destruct fn; simpl; try apply keeps_throw.
  apply keeps_bind; [apply keeps_effect|intros; apply keeps_ret].
Qed.

Lemma keeps_member v k : preserves J (member v k).
Proof. unfold member. destruct (not_nullish v); [apply keeps_ret|apply keeps_throw]. Qed.

Lemma keeps_setState p : used_partial p → preserves J (setState p).
Proof. intros Hp w Jw. by apply J_queue. Qed.

Ltac keep :=
  repeat first
    [ apply keeps_ret | apply keeps_throw
    | apply keeps_get_props | apply keeps_get_state | apply keeps_get_refs
    | apply keeps_effect | apply keeps_call | apply keeps_member
    | match goal with
      | |- preserves _ (mbind _ _) => apply keeps_bind; [|intros ?]
      | |- preserves _ (if ?b then _ else _) => destruct b
      | |- preserves _ (let _ := _ in _) => cbv zeta
      end ].

Lemma keeps_render : preserves J render.
Proof. unfold render, console.error, console.warn. keep. Qed.

Lemma keeps_updateNavigationState e : preserves J (updateNavigationState e).
Proof. unfold updateNavigationState. keep. Qed.

Lemma keeps_onLoadingStart e : preserves J (onLoadingStart e).
Proof. unfold onLoadingStart. keep. apply keeps_updateNavigationState. Qed.

Lemma keeps_onLoadingError e : preserves J (onLoadingError e).
Proof.
  unfold onLoadingError. keep.
  all: apply keeps_setState; right; right; by eexists.
Qed.

Lemma keeps_onLoadingFinish e : preserves J (onLoadingFinish e).
Proof.
  unfold onLoadingFinish. keep; try apply keeps_updateNavigationState.
  all: apply keeps_setState; right; by left.
Qed.

Lemma keeps_onMessage e : preserves J (onMessage e).
Proof. unfold onMessage. keep. Qed.

Lemma keeps_bridgeMessageListener body :
  preserves J (bridgeMessageListener body).
Proof. unfold bridgeMessageListener. keep. Qed.

Lemma keeps_notify subs eventType body :
  preserves J (DeviceEventEmitter.notify subs eventType body).
Proof.
  induction subs as [|[n l] subs IH]; simpl; keep; [|done].
  destruct l. apply keeps_bridgeMessageListener.
Qed.

Lemma keeps_emit eventType body :
  preserves J (DeviceEventEmitter.emit eventType body).
Proof. intros w Jw. by apply keeps_notify. Qed.

Lemma keeps_update : preserves J update.
Proof.
  intros w Jw. unfold update. destruct (pending w) eqn:E; [done|].
  assert (preserves J (apply_pending ;; render ;; mret tt)) as Hp.
  { apply keeps_bind; [exact J_merge|intros ?].
    apply keeps_bind; [apply keeps_render|intros ?; apply keeps_ret]. }
  by apply Hp.
Qed.

Lemma keeps_command cmd args :
  preserves J (handle ← getWebViewBridgeHandle;
               UIManager.dispatchViewManagerCommand handle cmd args).
Proof.
  unfold getWebViewBridgeHandle, UIManager.dispatchViewManagerCommand. keep.
Qed.

Lemma keeps_step i : preserves J (step i).
Proof.
  destruct i; simpl.
  - apply keeps_bind; [apply keeps_onLoadingStart|intros; apply keeps_update].
  - apply keeps_bind; [apply keeps_onLoadingError|intros; apply keeps_update].
  - apply keeps_bind; [apply keeps_onLoadingFinish|intros; apply keeps_update].
  - apply keeps_bind; [apply keeps_onMessage|intros; apply keeps_update].
  - apply keeps_bind; [apply keeps_emit|intros; apply keeps_update].
  - unfold receiveProps.
    apply keeps_bind; [by intros w Jw; apply J_props|intros ?].
    apply keeps_bind; [exact J_merge|intros ?].
    apply keeps_bind; [apply keeps_render|intros ?; apply keeps_ret].
  - apply keeps_command.
  - apply keeps_command.
  - apply keeps_command.
  - apply keeps_command.
  - intros w Jw. by apply J_refs.
Qed.

Lemma keeps_run inputs : preserves J (run inputs).
Proof.
  induction inputs as [|i inputs IH]; simpl; [apply keeps_ret|].
  apply keeps_bind; [apply keeps_step|done].
Qed.

End Frame.

Lemma bind_throw {A B} (m : M A) (k : A → M B) w e w1 :
  m w = (Throw e, w1) → (m ≫= k) w = (Throw e, w1).
Proof. intros H. unfold mbind, M_bind. by rewrite H. Qed.

Lemma bind_assoc {A B C} (m : M A) (k : A → M B) (k' : B → M C) w :
  ((m ≫= k) ≫= k') w = (m ≫= (λ a, k a ≫= k')) w.
Proof.
  unfold mbind, M_bind. by destruct (m w) as [[a|e] w1].
Qed.

Lemma keeps_attach_ref (J : World → Prop) r tag :
  (∀ w rs, J w → J (set_refs rs w)) → preserves J (attach_ref r tag).
Proof.
  intros HJ w Jw. simpl. unfold with_ref. destruct (el_ref _); try done.
  by apply HJ.
Qed.

(** ** What the forwarders leave alone *)

Lemma only_observed_refl w : only_observed w w.
Proof. exists []. by rewrite add_trace_nil. Qed.

Lemma only_observed_add_trace w w1 es :
  only_observed w w1 → only_observed w (add_trace es w1).
Proof. intros [es1 ->]. exists (es1 ++ es)%list. by rewrite add_trace_add_trace. Qed.

(** X1. render and the forwarding methods (onLoadingStart, onMessage, the stream
    listener, updateNavigationState) only add effects to the trace: they
    queue no state update and leave state, props, refs and subscriptions as
    they were, under any props and whether they return or throw. *)
Theorem forwarders_leave_instance_alone (w : World) (e : Event) (body : Val) :
  only_observed w (render w).2 ∧
  only_observed w (onLoadingStart e w).2 ∧
  only_observed w (onMessage e w).2 ∧
  only_observed w (bridgeMessageListener body w).2 ∧
  only_observed w (updateNavigationState e w).2.
Proof.
  pose proof (only_observed_add_trace w) as Ht.
  pose proof (only_observed_refl w) as Hw.
  repeat split.
  - by apply (keeps_render (only_observed w)).
  - by apply (keeps_onLoadingStart (only_observed w)).
  - by apply (keeps_onMessage (only_observed w)).
  - by apply (keeps_bridgeMessageListener (only_observed w)).
  - by apply (keeps_updateNavigationState (only_observed w)).
Qed.

(** ** One subscription per instance *)

Lemma mount_subscribes ps tag w :
  listeners (mount ps tag w).2 = (listeners w ++ [bridge_subscription])%list.
Proof.
  unfold mount. erewrite bind_ok; [|reflexivity].
  unfold componentWillMount. rewrite bind_assoc.
  erewrite bind_ok; [|reflexivity].
  set (L := (listeners w ++ [bridge_subscription])%list).
  set (J := λ w' : World, listeners w' = L).
  assert (∀ w' es, J w' → J (add_trace es w')) as Jt by done.
  assert (∀ w' rs, J w' → J (set_refs rs w')) as Jr by done.
  assert (∀ w' p, used_partial p → J w' →
                  J (set_pending (pending w' ++ [p]) w')) as Jq by done.
  match goal with |- listeners (?m ?w1).2 = L =>
    assert (preserves J m) as Hp; [|by apply Hp] end.
  apply keeps_bind.
  - apply keeps_bind; [apply keeps_get_props|intros ps'].
    destruct (truthy _); [|apply keeps_ret].
    apply keeps_setState; [done|by left].
  - intros _. apply keeps_bind; [by intros w' Jw'|intros _].
    apply keeps_bind; [by apply keeps_render|intros r].
    apply keeps_bind; [by apply keeps_attach_ref|intros _; apply keeps_ret].
Qed.

(** X2. The component subscribes exactly once in its life, first thing at mount:
    whatever the props and the inputs, and also when a render or a callback
    threw, the emitter holds the subscriptions it held before plus the one of
    this instance; no handler, render, command, props update or unmount adds
    or removes one. *)
Theorem one_subscription_per_instance (ps : gmap string Val) (tag : Z)
    (inputs : list Input) (w0 : World) :
  listeners (lifetime ps tag inputs w0).2
  = (listeners w0 ++ [bridge_subscription])%list ∧
  listeners (run inputs w0).2 = listeners w0.
Proof.
  assert (∀ L inputs', preserves (λ w' : World, listeners w' = L) (run inputs'))
    as Hrun.
  { intros L inputs'. by apply keeps_run. }
  split; [|by apply (Hrun (listeners w0))].
  unfold lifetime, mbind, M_bind.
  pose proof (mount_subscribes ps tag w0) as Hm.
  destruct (mount ps tag w0) as [[r|e] w1]; simpl in *; [|done].
  by apply Hrun.
Qed.

(** ** The shape of the state *)

Lemma used_partial_shape p s :
  used_partial p → state_shape s → state_shape (p ∪ s).
Proof.
  intros Hp (Hv & Hl & Hs). unfold state_shape.
  destruct Hp as [->|[->|[v ->]]].
  - rewrite (prop_union_l _ _ "viewState" WebViewBridgeState.LOADING) by reflexivity.
    rewrite !prop_union_r by reflexivity. split; [by repeat constructor|done].
  - rewrite (prop_union_l _ _ "viewState" WebViewBridgeState.IDLE) by reflexivity.
    rewrite !prop_union_r by reflexivity. split; [by repeat constructor|done].
  - rewrite (prop_union_l _ _ "viewState" WebViewBridgeState.ERROR) by reflexivity.
    rewrite !prop_union_r by reflexivity. split; [by repeat constructor|done].
Qed.

Lemma shape_safe_queue w p :
  used_partial p → shape_safe w →
  shape_safe (set_pending (pending w ++ [p]) w).
Proof.
  intros Hp [Hs Hq]. split; [done|]. simpl.
  apply Forall_app. split; [done|]. apply Forall_singleton.
  intros s. by apply used_partial_shape.
Qed.

Lemma shape_safe_merge w : shape_safe w → shape_safe (apply_pending w).2.
Proof.
  intros [Hs Hq]. split; simpl; [|done].
  revert Hs Hq. generalize (state w), (pending w). intros s q. revert s.
  induction q as [|p q IH]; intros s Hs Hq; simpl; [done|].
  inversion_clear Hq as [|? ? Hp Hq']. apply IH; [by apply Hp|done].
Qed.

Lemma shape_safe_run inputs : preserves shape_safe (run inputs).
Proof.
  apply keeps_run; try done.
  - apply shape_safe_queue.
  - apply shape_safe_merge.
Qed.

Lemma shape_safe_mount ps tag w : shape_safe (mount ps tag w).2.
Proof.
  unfold mount. erewrite bind_ok; [|reflexivity].
  match goal with |- shape_safe (?m ?w1).2 =>
    assert (preserves shape_safe m) as Hp;
    [|apply Hp; split; simpl; [|done]] end.
  - assert (∀ w' es, shape_safe w' → shape_safe (add_trace es w')) as Jt by done.
    apply keeps_bind.
    + unfold componentWillMount.
      apply keeps_bind; [by intros w' Jw'|intros _].
      apply keeps_bind; [apply keeps_get_props|intros ps'].
      destruct (truthy _); [|apply keeps_ret].
      apply keeps_setState; [apply shape_safe_queue|by left].
    + intros _. apply keeps_bind; [exact shape_safe_merge|intros _].
      apply keeps_bind; [by apply keeps_render|intros r].
      apply keeps_bind; [by apply keeps_attach_ref|intros _; apply keeps_ret].
  - unfold state_shape. repeat split. by repeat constructor.
Qed.

(** X3. From the constructor on, under any props and after any inputs (also when
    something threw), the view state is IDLE, LOADING or ERROR, so the
    invalid-state branch of render is never taken; [this.state.loading],
    which that branch would print, is never set; and the
    [startInLoadingState] the constructor puts in the state stays true
    whatever the prop of that name says. *)
Theorem state_keeps_its_shape (ps : gmap string Val) (tag : Z)
    (inputs : list Input) (w0 : World) :
  let w := (lifetime ps tag inputs w0).2 in
  viewState w ∈ [WebViewBridgeState.IDLE; WebViewBridgeState.LOADING;
                 WebViewBridgeState.ERROR] ∧
  prop (state w) "loading" = VUndefined ∧
  prop (state w) "startInLoadingState" = VBool true.
Proof.
  intros w. subst w. unfold lifetime, mbind, M_bind.
  pose proof (shape_safe_mount ps tag w0) as Hm.
  destruct (mount ps tag w0) as [[r|e] w1]; simpl in *; [|by destruct Hm].
  by destruct (shape_safe_run inputs w1 Hm).
Qed.

(** ** A whole life, input by input *)

Lemma warnings_table_effects ps e : warnings (table_effects ps e) = [].
Proof.
  destruct e; unfold table_effects; simpl;
    by rewrite ?warnings_app, ?warnings_invocation.
Qed.

Lemma warnings_change_effects ps ne : warnings (change_effects ps ne) = [].
Proof. unfold change_effects. case_match; [apply warnings_invocation|done]. Qed.

Lemma warnings_deliveries subs eventType fn body :
  warnings (deliveries subs eventType fn body) = [].
Proof.
  unfold deliveries. induction subs as [|sub subs IH]; simpl; [done|].
  rewrite warnings_app, IH. case_decide; [|done].
  by rewrite warnings_invocation.
Qed.

Lemma warnings_add_trace es w :
  warnings (trace (add_trace es w)) = (warnings (trace w) ++ warnings es)%list.
Proof. simpl. apply warnings_app. Qed.

(** What one input does to the display state, the refs and the console of a
    world at rest. *)
Lemma step_view i w :
  at_rest w → input_ok i = true →
  ∃ w',
    step i w = (Ok tt, w') ∧ at_rest w' ∧
    listeners w' = listeners w ∧
    props w' = props_after [i] (props w) ∧
    viewState w' = view_after [i] (viewState w) ∧
    refs w' = (match i with Unmount => ∅ | _ => refs w end) ∧
    warnings (trace w')
    = (warnings (trace w) ++
       if rerenders i then deprecation_warnings (props w') else [])%list.
Proof.
  intros Hr Hi.
  destruct (step_ok i w Hr Hi) as (w' & es & Hs & Hr' & Hl & Hp & _).
  exists w'. do 4 (split; [done|]).
  destruct Hr as (H & Hq & Herr).
  destruct i as [ne|ne|ne|ne|body|ps| | | |message| ]; simpl in Hi.
  - rewrite step_load_start in Hs by done. injection Hs as <-.
    rewrite warnings_add_trace, warnings_table_effects. done.
  - rewrite step_load_error in Hs by done. injection Hs as <-.
    rewrite !warnings_add_trace, warnings_render_effects. simpl trace.
    rewrite warnings_app, warnings_table_effects, app_nil_r.
    unfold viewState. simpl.
    by rewrite (prop_union_l _ _ "viewState" WebViewBridgeState.ERROR)
      by reflexivity.
  - rewrite step_load_finish in Hs by done. injection Hs as <-.
    rewrite !warnings_add_trace, warnings_render_effects. simpl trace.
    rewrite warnings_app, warnings_table_effects, app_nil_r.
    unfold viewState. simpl.
    by rewrite (prop_union_l _ _ "viewState" WebViewBridgeState.IDLE)
      by reflexivity.
  - callback H "onBridgeMessage". simpl in Hs.
    erewrite bind_ok in Hs; [|by apply onMessage_ok].
    rewrite update_idle in Hs by done. injection Hs as <-.
    rewrite warnings_add_trace, warnings_change_effects. done.
  - callback H "onBridgeMessage". simpl in Hs.
    erewrite bind_ok in Hs; [|by apply emit_ok].
    rewrite update_idle in Hs by done. injection Hs as <-.
    rewrite warnings_add_trace, warnings_deliveries. done.
  - simpl in Hs. rewrite receiveProps_ok in Hs by done. injection Hs as <-.
    rewrite warnings_add_trace, warnings_render_effects. done.
  - injection Hs as <-. simpl. by rewrite warnings_app.
  - injection Hs as <-. simpl. by rewrite warnings_app.
  - injection Hs as <-. simpl. by rewrite warnings_app.
  - injection Hs as <-. simpl. by rewrite warnings_app.
  - injection Hs as <-. simpl. by rewrite app_nil_r.
Qed.

Lemma run_view inputs w :
  at_rest w → forallb input_ok inputs = true →
  ∃ w',
    run inputs w = (Ok tt, w') ∧ at_rest w' ∧
    listeners w' = listeners w ∧
    props w' = props_after inputs (props w) ∧
    viewState w' = view_after inputs (viewState w) ∧
    refs w' = (if unmounted inputs then ∅ else refs w) ∧
    warnings (trace w')
    = (warnings (trace w) ++ warnings_of (props w) inputs)%list.
Proof.
  revert w. induction inputs as [|i inputs IH]; intros w Hr Hin.
  - exists w. simpl. by rewrite app_nil_r.
  - simpl in Hin. apply andb_true_iff in Hin as [Hi Hin'].
    destruct (step_view i w Hr Hi) as (w1 & Hs & Hr1 & Hl1 & Hp1 & Hv1 & Hf1 & Hw1).
    destruct (IH w1 Hr1 Hin') as (w2 & Hs2 & Hr2 & Hl2 & Hp2 & Hv2 & Hf2 & Hw2).
    exists w2. simpl run. erewrite bind_ok by exact Hs.
    split; [done|]. split; [done|]. split; [congruence|].
    split; [by rewrite Hp2, Hp1|]. split; [by rewrite Hv2, Hv1|].
    split.
    + rewrite Hf2, Hf1. simpl. destruct i; simpl; try done.
      by destruct (unmounted inputs).
    + rewrite Hw2, Hw1, Hp1, <- app_assoc. done.
Qed.

Lemma webView_jsx_ref props' source sty :
  el_ref (webView_jsx props' source sty)
  = default (VStr RCT_WEBVIEWBRIDGE_REF) (props' !! "ref").
Proof. jsx_lookup. by destruct (props' !! _). Qed.

Lemma mounted_world_refs ps tag w :
  ps !! "ref" = None →
  refs (mounted_world ps tag w)
  = {[ RCT_WEBVIEWBRIDGE_REF := native_instance tag ]}.
Proof.
  intros Href. unfold mounted_world, with_ref, rendered. cbn [webView].
  rewrite webView_jsx_ref, lookup_delete_ne, Href by done. reflexivity.
Qed.

Lemma lifetime_view ps tag inputs :
  well_typed_props ps = true → forallb input_ok inputs = true →
  ∃ w,
    lifetime ps tag inputs empty_world = (Ok tt, w) ∧ at_rest w ∧
    props w = props_after inputs ps ∧
    viewState w
    = view_after inputs (if truthy (prop ps "startInLoadingState")
                         then WebViewBridgeState.LOADING
                         else WebViewBridgeState.IDLE) ∧
    refs w = (if unmounted inputs then ∅
              else refs (mounted_world ps tag empty_world)) ∧
    warnings (trace w)
    = (deprecation_warnings ps ++ warnings_of ps inputs)%list.
Proof.
  intros H Hin. callback H "renderLoading".
  pose proof (at_rest_mounted ps tag empty_world H) as Hr.
  destruct (mounted_world_fields ps tag empty_world) as (Hps & Hs & Hq & Hl & Ht).
  destruct (run_view inputs _ Hr Hin)
    as (w & Hrun & Hr' & Hl' & Hp' & Hv' & Hf' & Hw').
  exists w. unfold lifetime. erewrite bind_ok by (by apply mount_ok).
  split; [done|]. split; [done|]. split; [by rewrite Hp', Hps|].
  split.
  { rewrite Hv'. unfold viewState. by rewrite Hs, mounted_state_view. }
  split; [done|].
  rewrite Hw', Hps, Ht. simpl. by rewrite warnings_render_effects.
Qed.


(** ** The display state over a whole life *)



(** ** The deprecation warnings of a life *)



(** ** The handle of the commands *)

(** X6. When the host's props carry no ref of their own, the commands of a
    mounted instance go to the handle of the native view it was mounted
    with; once the instance has been unmounted they are still dispatched,
    without an exception, but to a null handle. *)
Theorem commands_follow_the_mount (ps : gmap string Val) (tag : Z)
    (inputs : list Input) (message : Val) :
  ps !! "ref" = None →
  well_typed_props ps = true →
  forallb input_ok inputs = true →
  ∃ w, lifetime ps tag inputs empty_world = (Ok tt, w) ∧
       current_handle w = (if unmounted inputs then VNull else VNum tag) ∧
       sendToBridge message w
       = (Ok tt,
          add_trace [DispatchViewManagerCommand
                       (if unmounted inputs then VNull else VNum tag)
                       Commands.sendToBridge (VArr [message])] w) ∧
       goBack w
       = (Ok tt,
          add_trace [DispatchViewManagerCommand
                       (if unmounted inputs then VNull else VNum tag)
                       Commands.goBack VNull] w).
Proof.
  intros Href H Hin.
  destruct (lifetime_view ps tag inputs H Hin) as (w & Hl & _ & _ & _ & Hf & _).
  exists w. split; [done|].
  assert (current_handle w = if unmounted inputs then VNull else VNum tag) as Hh.
  { unfold current_handle. rewrite Hf, mounted_world_refs by done.
    by destruct (unmounted inputs). }
  split; [done|]. rewrite <- Hh. done.
Qed.

Lemma commands_follow_the_mount_witness :
  sample_props !! "ref" = None ∧
  well_typed_props sample_props = true ∧
  forallb input_ok [LoadFinish sample_nav; Unmount] = true ∧
  ∃ w, lifetime sample_props 7 [LoadFinish sample_nav; Unmount] empty_world
       = (Ok tt, w) ∧
       current_handle w
       = (if unmounted [LoadFinish sample_nav; Unmount] then VNull else VNum 7) ∧
       sendToBridge (VStr "hello") w
       = (Ok tt,
          add_trace [DispatchViewManagerCommand
                       (if unmounted [LoadFinish sample_nav; Unmount]
                        then VNull else VNum 7)
                       Commands.sendToBridge (VArr [VStr "hello"])] w) ∧
       goBack w
       = (Ok tt,
          add_trace [DispatchViewManagerCommand
                       (if unmounted [LoadFinish sample_nav; Unmount]
                        then VNull else VNum 7)
                       Commands.goBack VNull] w).
Proof.
  split; [reflexivity|]. split; [reflexivity|]. split; [reflexivity|].
  apply (commands_follow_the_mount sample_props 7
           [LoadFinish sample_nav; Unmount] (VStr "hello")); reflexivity.
Defined.

(** ** The two inbound paths, compared *)

(** X7. The change path of the native view relays like the stream path: with one
    subscription and a callback that is a function or absent, a change event
    whose payload is an object does exactly what the same object emitted on
    the stream does, namely one call of onBridgeMessage with its message (or
    nothing without a callback); a change event without payload is
    skipped. *)
Theorem change_path_relays_like_the_stream (w : World)
    (body : gmap string Val) :
  func_or_absent (prop (props w) "onBridgeMessage") = true →
  pending w = [] →
  listeners w = [bridge_subscription] →
  step (Change (VObj body)) w = step (BridgeMessage body) w ∧
  step (Change (VObj body)) w
  = (Ok tt, add_trace (invocation (prop (props w) "onBridgeMessage")
                                  [prop body "message"]) w) ∧
  step (Change VNull) w = (Ok tt, w) ∧
  step (Change VUndefined) w = (Ok tt, w).
Proof.
  intros F Hp Hl.
  assert (∀ ne, step (Change ne) w
                = (Ok tt, add_trace (change_effects (props w) ne) w)) as Hc.
  { intros ne. simpl. erewrite bind_ok; [|by apply onMessage_ok].
    by apply update_idle. }
  rewrite step_bridge_message by done. rewrite !Hc.
  unfold change_effects. cbn [not_nullish member_val].
  by rewrite add_trace_nil.
Qed.

Lemma change_path_relays_like_the_stream_witness :
  func_or_absent (prop (props sample_world) "onBridgeMessage") = true ∧
  pending sample_world = [] ∧
  listeners sample_world = [bridge_subscription] ∧
  step (Change (VObj ping)) sample_world = step (BridgeMessage ping) sample_world ∧
  step (Change (VObj ping)) sample_world
  = (Ok tt, add_trace (invocation (prop (props sample_world) "onBridgeMessage")
                                  [prop ping "message"]) sample_world) ∧
  step (Change VNull) sample_world = (Ok tt, sample_world) ∧
  step (Change VUndefined) sample_world = (Ok tt, sample_world).
Proof.
  split; [reflexivity|]. split; [reflexivity|]. split; [reflexivity|].
  apply (change_path_relays_like_the_stream sample_world ping); reflexivity.
Defined.

(** X8. The stream listener reads [body.message] before it looks for a callback:
    an event emitted without a body makes the first subscription of the
    instance throw, whatever the props are, even when no callback is
    registered, and nothing is called. *)
Theorem stream_listener_reads_message_first (w : World)
    (rest : list (string * Listener)) :
  listeners w = bridge_subscription :: rest →
  DeviceEventEmitter.emit "webViewBridgeMessage" VNull w
  = (Throw TypeError_null, w) ∧
  DeviceEventEmitter.emit "webViewBridgeMessage" VUndefined w
  = (Throw TypeError_null, w).
Proof.
  intros Hl. unfold DeviceEventEmitter.emit. rewrite Hl.
  unfold bridge_subscription. split; reflexivity.
Qed.

Lemma stream_listener_reads_message_first_witness :
  listeners sample_world = bridge_subscription :: [] ∧
  DeviceEventEmitter.emit "webViewBridgeMessage" VNull sample_world
  = (Throw TypeError_null, sample_world) ∧
  DeviceEventEmitter.emit "webViewBridgeMessage" VUndefined sample_world
  = (Throw TypeError_null, sample_world).
Proof.
  split; [reflexivity|].
  apply (stream_listener_reads_message_first sample_world []). reflexivity.
Defined.

(** X9. The two paths test the callback differently: the stream listener asks
    whether it is truthy, onMessage whether it is not null.  For a callback
    prop that is falsy but not null (false, 0, the empty string) the stream
    listener skips the event, while onMessage calls the value and throws. *)
Theorem falsy_callback_splits_the_paths (w : World) (body : gmap string Val) :
  truthy (prop (props w) "onBridgeMessage") = false →
  not_nullish (prop (props w) "onBridgeMessage") = true →
  bridgeMessageListener (VObj body) w = (Ok tt, w) ∧
  onMessage (mkEvent (VObj body)) w = (Throw TypeError_not_a_function, w).
Proof.
  intros Ht Hn. unfold bridgeMessageListener, onMessage.
  erewrite !bind_ok; [|reflexivity..]. simpl. rewrite Ht, Hn. simpl.
  split; [done|].
  erewrite bind_ok; [|reflexivity].
  destruct (prop (props w) "onBridgeMessage"); simpl in *; done.
Qed.

Lemma falsy_callback_splits_the_paths_witness :
  truthy (prop (props falsy_callback_world) "onBridgeMessage") = false ∧
  not_nullish (prop (props falsy_callback_world) "onBridgeMessage") = true ∧
  bridgeMessageListener (VObj ping) falsy_callback_world
  = (Ok tt, falsy_callback_world) ∧
  onMessage (mkEvent (VObj ping)) falsy_callback_world
  = (Throw TypeError_not_a_function, falsy_callback_world).
Proof.
  split; [reflexivity|]. split; [reflexivity|].
  apply (falsy_callback_splits_the_paths falsy_callback_world ping);
    reflexivity.
Defined.

(** X10. The stream listener closes over the instance, not over the props of the
    mount: after the parent has handed over new props, a stream event goes to
    the onBridgeMessage of the new props. *)
Theorem stream_listener_reads_current_props (ps ps' : gmap string Val)
    (tag : Z) (inputs : list Input) (body : gmap string Val) :
  well_typed_props ps = true →
  well_typed_props ps' = true →
  forallb input_ok inputs = true →
  ∃ w, lifetime ps tag (inputs ++ [ReceiveProps ps']) empty_world = (Ok tt, w) ∧
       step (BridgeMessage body) w
       = (Ok tt, add_trace (invocation (prop ps' "onBridgeMessage")
                                       [prop body "message"]) w).
Proof.
  intros H H' Hin.
  assert (forallb input_ok (inputs ++ [ReceiveProps ps']) = true) as Hin'.
  { rewrite forallb_app, Hin. simpl. by rewrite H'. }
  destruct (lifetime_ok ps tag _ empty_world H Hin')
    as (w & es & Hrun & (Hw & Hp & Herr) & Hl & Hps & _).
  exists w. split; [done|].
  assert (props w = ps') as Hnew.
  { rewrite Hps. unfold props_after. by rewrite foldl_app. }
  callback Hw "onBridgeMessage".
  rewrite step_bridge_message by done. by rewrite Hnew.
Qed.

Lemma stream_listener_reads_current_props_witness :
  well_typed_props legacy_props = true ∧
  well_typed_props listening_props = true ∧
  forallb input_ok [LoadFinish sample_nav] = true ∧
  ∃ w, lifetime legacy_props 7
         ([LoadFinish sample_nav] ++ [ReceiveProps listening_props])
         empty_world = (Ok tt, w) ∧
       step (BridgeMessage ping) w
       = (Ok tt, add_trace (invocation (prop listening_props "onBridgeMessage")
                                       [prop ping "message"]) w).
Proof.
  split; [reflexivity|]. split; [reflexivity|]. split; [reflexivity|].
  apply (stream_listener_reads_current_props legacy_props listening_props 7
           [LoadFinish sample_nav] ping); reflexivity.
Defined.

(** ** What the native view is handed *)

Lemma render_returns_element w r w' :
  render w = (Ok r, w') →
  view_style r = styles.container ∧
  webView r = webView_jsx (delete "source" (props w)) (prop (props w) "source")
                          (expected_styles (props w) (state w)).
Proof.
  unfold render, expected_styles, mbind, M_bind, get_state, get_props.
  intros H. repeat case_match; simplify_eq; try done.
  all: unfold mret, M_ret in H; by injection H as <- _.
Qed.

Lemma webView_jsx_handlers props' source sty :
  let el := webView_jsx props' source sty in
  el_props el !! "onLoadingStart" = Some (VBound M_onLoadingStart) ∧
  el_props el !! "onLoadingFinish" = Some (VBound M_onLoadingFinish) ∧
  el_props el !! "onLoadingError" = Some (VBound M_onLoadingError) ∧
  el_props el !! "onChange" = Some (VBound M_onMessage).
Proof.
  intros el. subst el. split; [|split; [|split]].
  - jsx_lookup. by destruct (props' !! _).
  - jsx_lookup. by destruct (props' !! _).
  - jsx_lookup. by destruct (props' !! _).
  - jsx_lookup. by destruct (props' !! _).
Qed.

Lemma webView_jsx_source props' source sty :
  el_props (webView_jsx props' source sty) !! "source"
  = Some (VResolved source).
Proof. jsx_lookup. by destruct (props' !! _). Qed.

Lemma webView_jsx_style_lookup props' source sty :
  el_props (webView_jsx props' source sty) !! "style" = Some (VArr sty).
Proof. jsx_lookup. by destruct (props' !! _). Qed.

Lemma webView_jsx_key_ref props' source sty :
  el_props (webView_jsx props' source sty) !! "key" = None ∧
  el_props (webView_jsx props' source sty) !! "ref" = None.
Proof.
  unfold webView_jsx, createElement. cbn [el_props]. split.
  - apply lookup_delete_eq.
  - rewrite lookup_delete_ne by done. apply lookup_delete_eq.
Qed.

(** X11. Whatever the host passes for them, the attributes the component sets
    itself win: every element render returns carries the component's own four
    bound handlers, the resolved source, and a style array that starts with
    the container style followed by the host's style; key and ref are taken
    out of the props, and the outer View has the container style. *)
Theorem component_attributes_win (w : World) (r : Rendered) (w' : World) :
  render w = (Ok r, w') →
  view_style r = styles.container ∧
  el_type (webView r) = "RCTWebViewBridge" ∧
  el_props (webView r) !! "onLoadingStart" = Some (VBound M_onLoadingStart) ∧
  el_props (webView r) !! "onLoadingFinish" = Some (VBound M_onLoadingFinish) ∧
  el_props (webView r) !! "onLoadingError" = Some (VBound M_onLoadingError) ∧
  el_props (webView r) !! "onChange" = Some (VBound M_onMessage) ∧
  el_props (webView r) !! "source"
  = Some (VResolved (prop (props w) "source")) ∧
  (∃ hidden, el_props (webView r) !! "style"
             = Some (VArr (styles.container :: prop (props w) "style"
                           :: hidden))) ∧
  el_props (webView r) !! "key" = None ∧
  el_props (webView r) !! "ref" = None.
Proof.
  intros H. destruct (render_returns_element w r w' H) as [Hv ->].
  split; [done|]. split; [done|].
  destruct (webView_jsx_handlers (delete "source" (props w))
              (prop (props w) "source")
              (expected_styles (props w) (state w))) as (H1 & H2 & H3 & H4).
  destruct (webView_jsx_key_ref (delete "source" (props w))
              (prop (props w) "source")
              (expected_styles (props w) (state w))) as (H5 & H6).
  do 4 (split; [done|]).
  split; [apply webView_jsx_source|].
  split; [|done].
  rewrite webView_jsx_style_lookup. unfold expected_styles. by eexists.
Qed.

Lemma component_attributes_win_witness :
  render sample_world
  = (Ok (rendered (props sample_world) (state sample_world)),
     add_trace (render_effects (props sample_world) (state sample_world))
               sample_world) ∧
  let r := rendered (props sample_world) (state sample_world) in
  view_style r = styles.container ∧
  el_type (webView r) = "RCTWebViewBridge" ∧
  el_props (webView r) !! "onLoadingStart" = Some (VBound M_onLoadingStart) ∧
  el_props (webView r) !! "onLoadingFinish" = Some (VBound M_onLoadingFinish) ∧
  el_props (webView r) !! "onLoadingError" = Some (VBound M_onLoadingError) ∧
  el_props (webView r) !! "onChange" = Some (VBound M_onMessage) ∧
  el_props (webView r) !! "source"
  = Some (VResolved (prop (props sample_world) "source")) ∧
  (∃ hidden, el_props (webView r) !! "style"
             = Some (VArr (styles.container :: prop (props sample_world) "style"
                           :: hidden))) ∧
  el_props (webView r) !! "key" = None ∧
  el_props (webView r) !! "ref" = None.
Proof.
  assert (render sample_world
          = (Ok (rendered (props sample_world) (state sample_world)),
             add_trace (render_effects (props sample_world) (state sample_world))
                       sample_world)) as H by (vm_compute; reflexivity).
  split; [exact H|].
  exact (component_attributes_win sample_world _ _ H).
Defined.

(** ** The error branch of render, at its edge *)

Lemma render_error_edge (w : World) :
  viewState w = WebViewBridgeState.ERROR →
  not_nullish (lastErrorEvent w) = false →
  (truthy (prop (props w) "renderError") = true →
   render w = (Throw TypeError_null, w)) ∧
  (truthy (prop (props w) "renderError") = false →
   ∃ r, render w
        = (Ok r, add_trace (map ConsoleWarn (deprecation_warnings (props w))) w) ∧
        otherView r = prop (props w) "renderError" ∧
        prop (el_props (webView r)) "style"
        = VArr [styles.container; prop (props w) "style"; styles.hidden]).
Proof.
  unfold viewState, lastErrorEvent. intros HE HN.
  destruct w as [ps s q rs ls t]; simpl in *.
  split; intros HR.
  - unfold render, mbind, M_bind, get_state, get_props; simpl.
    rewrite HE. simpl. rewrite HR. unfold member. by rewrite HN.
  - eexists. split; [|split].
    + unfold render, mbind, M_bind, get_state, get_props; simpl.
      rewrite HE. simpl. rewrite HR.
      unfold deprecation_warnings, add_trace, set_trace; simpl.
      destruct (truthy (prop ps "javaScriptEnabledAndroid")),
        (truthy (prop ps "domStorageEnabledAndroid")); simpl;
        rewrite ?app_nil_r, <- ?app_assoc; reflexivity.
    + done.
    + cbn [webView]. by rewrite webView_jsx_style.
Qed.

(** X12. In the ERROR state render reads the error record only when there is an
    error renderer to call.  With a record that is null or undefined it
    throws, before calling anything, when renderError is truthy; without a
    renderError it returns, the WebView hidden and nothing shown over it. *)
Theorem render_error_without_record (w : World) :
  viewState w = WebViewBridgeState.ERROR →
  not_nullish (lastErrorEvent w) = false →
  (truthy (prop (props w) "renderError") = true →
   render w = (Throw TypeError_null, w)) ∧
  (truthy (prop (props w) "renderError") = false →
   ∃ r, render w
        = (Ok r, add_trace (map ConsoleWarn (deprecation_warnings (props w))) w) ∧
        otherView r = prop (props w) "renderError" ∧
        prop (el_props (webView r)) "style"
        = VArr [styles.container; prop (props w) "style"; styles.hidden]).
Proof. apply render_error_edge. Qed.

Lemma render_error_without_record_witness :
  viewState recordless_world = WebViewBridgeState.ERROR ∧
  not_nullish (lastErrorEvent recordless_world) = false ∧
  (truthy (prop (props recordless_world) "renderError") = true →
   render recordless_world = (Throw TypeError_null, recordless_world)) ∧
  (truthy (prop (props recordless_world) "renderError") = false →
   ∃ r, render recordless_world
        = (Ok r, add_trace (map ConsoleWarn
                              (deprecation_warnings (props recordless_world)))
                           recordless_world) ∧
        otherView r = prop (props recordless_world) "renderError" ∧
        prop (el_props (webView r)) "style"
        = VArr [styles.container; prop (props recordless_world) "style";
                styles.hidden]).
Proof.
  split; [reflexivity|]. split; [reflexivity|].
  apply (render_error_without_record recordless_world); reflexivity.
Defined.

(** X13. onLoadingError stores [event.nativeEvent] without looking at it.  For an
    event whose native payload is null or undefined the handler still calls
    onError and onLoadEnd and puts the instance in the ERROR state, with that
    null as its error record; the render that follows throws when the host
    supplied renderError and returns otherwise. *)
Theorem load_error_without_payload (w : World) (v : Val) :
  well_typed_props (props w) = true →
  pending w = [] →
  not_nullish v = false →
  let e := mkEvent v in
  let w1 :=
    set_pending []
      (set_state (<[ "lastErrorEvent" := v ]>
                  {[ "viewState" := WebViewBridgeState.ERROR ]} ∪ state w)
         (add_trace ([EventPersist e] ++
                     invocation (prop (props w) "onError") [event_val e] ++
                     invocation (prop (props w) "onLoadEnd") [event_val e]) w)) in
  viewState w1 = WebViewBridgeState.ERROR ∧
  lastErrorEvent w1 = v ∧
  (onLoadingError e ;; update) w
  = if truthy (prop (props w) "renderError")
    then (Throw TypeError_null, w1)
    else (Ok tt, add_trace (map ConsoleWarn (deprecation_warnings (props w))) w1).
Proof.
  intros H Hp Hv e w1.
  assert (viewState w1 = WebViewBridgeState.ERROR) as HE.
  { unfold viewState. simpl.
    by rewrite (prop_union_l _ _ "viewState" WebViewBridgeState.ERROR)
      by reflexivity. }
  assert (lastErrorEvent w1 = v) as HL.
  { unfold lastErrorEvent. simpl.
    by rewrite (prop_union_l _ _ "lastErrorEvent" v) by reflexivity. }
  split; [done|]. split; [done|].
  erewrite bind_ok; [|by apply onLoadingError_ok].
  rewrite Hp. unfold update. cbn [pending set_pending app].
  erewrite bind_ok; [|reflexivity]. cbn [pending set_pending foldl].
  change (set_pending [] _) with w1.
  destruct (render_error_edge w1 HE) as [Ht Hf];
    [by rewrite HL|].
  change (props w1) with (props w) in *.
  destruct (truthy (prop (props w) "renderError")).
  - erewrite bind_throw; [done|by apply Ht].
  - destruct (Hf eq_refl) as (r & Hr & _). erewrite bind_ok by exact Hr. done.
Qed.

Lemma load_error_without_payload_witness :
  well_typed_props (props sample_world) = true ∧
  pending sample_world = [] ∧
  not_nullish VNull = false ∧
  let e := mkEvent VNull in
  let w1 :=
    set_pending []
      (set_state (<[ "lastErrorEvent" := VNull ]>
                  {[ "viewState" := WebViewBridgeState.ERROR ]}
                  ∪ state sample_world)
         (add_trace ([EventPersist e] ++
                     invocation (prop (props sample_world) "onError")
                                [event_val e] ++
                     invocation (prop (props sample_world) "onLoadEnd")
                                [event_val e]) sample_world)) in
  viewState w1 = WebViewBridgeState.ERROR ∧
  lastErrorEvent w1 = VNull ∧
  (onLoadingError e ;; update) sample_world
  = if truthy (prop (props sample_world) "renderError")
    then (Throw TypeError_null, w1)
    else (Ok tt, add_trace (map ConsoleWarn
                              (deprecation_warnings (props sample_world))) w1).
Proof.
  split; [reflexivity|]. split; [reflexivity|]. split; [reflexivity|].
  apply (load_error_without_payload sample_world VNull); reflexivity.
Defined.

(** ** Recovery after a failed load *)

(** X14. A load that finishes after one that failed brings the WebView back: the
    display state is IDLE, the next render shows no overlay, does not hide
    the WebView and calls no renderer.  The record of the failed load is not
    cleared: it stays stored, unused, until the next load error replaces
    it. *)
Theorem load_finish_recovers_from_error (w : World)
    (ne ne' : gmap string Val) :
  well_typed_props (props w) = true →
  pending w = [] →
  ∃ w', run [LoadError ne; LoadFinish ne'] w = (Ok tt, w') ∧
        viewState w' = WebViewBridgeState.IDLE ∧
        lastErrorEvent w' = VObj ne ∧
        ∃ r, render w'
             = (Ok r, add_trace (map ConsoleWarn
                                   (deprecation_warnings (props w))) w') ∧
             otherView r = VNull ∧
             prop (el_props (webView r)) "style"
             = VArr [styles.container; prop (props w) "style"].
Proof.
  intros H Hp.
  destruct (lifecycle_step (load_error ne) w H Hp)
    as (w1 & Hs1 & Hv1 & Hps1 & Hq1 & He1 & _).
  destruct (lifecycle_step (load_finish ne') w1)
    as (w2 & Hs2 & Hv2 & Hps2 & Hq2 & He2 & _); [by rewrite Hps1|done|].
  exists w2. simpl in Hs1, Hs2. simpl run.
  erewrite bind_ok by exact Hs1. erewrite bind_ok by exact Hs2.
  simpl in Hv2. split; [done|]. split; [done|].
  split; [by rewrite He2, He1|].
  exists (rendered (props w2) (state w2)).
  rewrite render_branch.
  - unfold rendered, render_effects, overlay, overlay_effects, expected_styles.
    cbn [webView otherView]. rewrite webView_jsx_style.
    unfold viewState in Hv2. rewrite Hv2, Hps2, Hps1. done.
  - rewrite Hv2. intros [=].
  - rewrite Hv2. intros [=].
Qed.

Lemma load_finish_recovers_from_error_witness :
  well_typed_props (props sample_world) = true ∧
  pending sample_world = [] ∧
  ∃ w', run [LoadError sample_error; LoadFinish sample_nav] sample_world
        = (Ok tt, w') ∧
        viewState w' = WebViewBridgeState.IDLE ∧
        lastErrorEvent w' = VObj sample_error ∧
        ∃ r, render w'
             = (Ok r, add_trace (map ConsoleWarn
                                   (deprecation_warnings (props sample_world)))
                                w') ∧
             otherView r = VNull ∧
             prop (el_props (webView r)) "style"
             = VArr [styles.container; prop (props sample_world) "style"].
Proof.
  split; [reflexivity|]. split; [reflexivity|].
  apply (load_finish_recovers_from_error sample_world sample_error sample_nav);
    reflexivity.
Defined.

(** ** render is a function of props and state *)

Lemma reads_ret {A} (a : A) : reads_props_and_state (mret a).
Proof.
  intros w w2 _ _. split; [done|]. exists []. by rewrite !add_trace_nil.
Qed.

Lemma reads_throw {A} e : reads_props_and_state (@throw A e).
Proof.
  intros w w2 _ _. split; [done|]. exists []. by rewrite !add_trace_nil.
Qed.

Lemma reads_get_props : reads_props_and_state get_props.
Proof.
  intros w w2 Hp _. simpl. split; [by rewrite Hp|].
  exists []. by rewrite !add_trace_nil.
Qed.

Lemma reads_get_state : reads_props_and_state get_state.
Proof.
  intros w w2 _ Hs. simpl. split; [by rewrite Hs|].
  exists []. by rewrite !add_trace_nil.
Qed.

Lemma reads_effect e : reads_props_and_state (effect e).
Proof. intros w w2 _ _. split; [done|]. by exists [e]. Qed.

Lemma reads_bind {A B} (m : M A) (k : A → M B) :
  reads_props_and_state m → (∀ a, reads_props_and_state (k a)) →
  reads_props_and_state (m ≫= k).
Proof.
  intros Hm Hk w w2 Hp Hs.
  destruct (Hm w w2 Hp Hs) as (Hr & es & Hw & Hw2).
  unfold mbind, M_bind.
  destruct (m w) as [r1 w1], (m w2) as [r2 w3]. simpl in *. subst.
  destruct r2 as [a|e]; [|split; [done|by exists es]].
  destruct (Hk a (add_trace es w) (add_trace es w2) Hp Hs)
    as (Hr' & es' & Hw' & Hw2').
  destruct (k a (add_trace es w)) as [r1 w1], (k a (add_trace es w2)) as [r2 w3].
  simpl in *. subst. split; [done|].
  exists (es ++ es')%list. by rewrite !add_trace_add_trace.
Qed.

Lemma reads_call fn args : reads_props_and_state (call fn args).
Proof.
  destruct fn; simpl; try apply reads_throw.
  apply reads_bind; [apply reads_effect|intros; apply reads_ret].
Qed.

Lemma reads_member v k : reads_props_and_state (member v k).
Proof.
  unfold member. destruct (not_nullish v); [apply reads_ret|apply reads_throw].
Qed.

(** X15. render reads nothing but [this.props] and [this.state]: in two worlds
    that agree on them, whatever their queued updates, refs, subscriptions
    and earlier effects, it returns the same element (or throws the same
    error) and has the same effects, under any props. *)
Theorem render_depends_on_props_and_state (w w2 : World) :
  props w = props w2 →
  state w = state w2 →
  (render w).1 = (render w2).1 ∧
  ∃ es, (render w).2 = add_trace es w ∧ (render w2).2 = add_trace es w2.
Proof.
  revert w w2. change (reads_props_and_state render).
  unfold render, console.error, console.warn.
  repeat first
    [ apply reads_ret | apply reads_throw | apply reads_get_props
    | apply reads_get_state | apply reads_effect | apply reads_call
    | apply reads_member
    | match goal with
      | |- reads_props_and_state (mbind _ _) => apply reads_bind; [|intros ?]
      | |- reads_props_and_state (if ?b then _ else _) => destruct b
      | |- reads_props_and_state (let _ := _ in _) => cbv zeta
      end ].
Qed.

Lemma render_depends_on_props_and_state_witness :
  props sample_world = props (set_pending [ping] (set_trace [] sample_world)) ∧
  state sample_world = state (set_pending [ping] (set_trace [] sample_world)) ∧
  (render sample_world).1
  = (render (set_pending [ping] (set_trace [] sample_world))).1 ∧
  ∃ es, (render sample_world).2 = add_trace es sample_world ∧
        (render (set_pending [ping] (set_trace [] sample_world))).2
        = add_trace es (set_pending [ping] (set_trace [] sample_world)).
Proof.
  split; [reflexivity|]. split; [reflexivity|].
  apply (render_depends_on_props_and_state sample_world
           (set_pending [ping] (set_trace [] sample_world))); reflexivity.
Defined.
